(** * ELF image inspection (stdlib/public/runtime/ImageInspectionELF.cpp)

    A shallow embedding of the routines that talk to the dynamic loader in
    order to find the metadata sections emitted by the Swift compiler, and
    the properties of those routines.

    The C++ code is effectful: it calls [dlopen], [dlsym], [dlclose],
    [dlerror], [dladdr] and [dl_iterate_phdr], writes one global flag per
    registry, calls a registered function pointer and may end the process
    through [fatalError].  The embedding keeps all of this explicit: a
    computation takes the state of the process ([World]) and gives back an
    [Outcome], the new state and the list of calls it made to the outside
    ([Event]). *)

From Stdlib Require Import ZArith List String Ascii Bool Lia.
From Stdlib Require Import Strings.Byte.
Import ListNotations.

Local Open Scope string_scope.
Local Open Scope list_scope.
Local Open Scope Z_scope.

(* ===================================================================== *)
(** ** Data *)
(* ===================================================================== *)

(** A [void *] or [const char *] used as an address.  Pointer arithmetic
    stays inside one object (anything else is undefined in C++), so
    addresses are unbounded integers and [nullptr] is 0. *)
Definition pointer := Z.
Definition nullptr : pointer := 0.

Definition is_null (p : pointer) : bool := p =? nullptr.

(** A [const char *] used as a NUL-terminated string; [None] is [nullptr]. *)
Definition cstring := option string.

(** The symbol names of lines 34-39. *)
Definition ProtocolConformancesSymbol : string :=
  ".swift2_protocol_conformances_start".
Definition TypeMetadataRecordsSymbol : string :=
  ".swift2_type_metadata_start".

(** Modelled from the spec: the two accumulation callbacks are declared in
    ImageInspection.h and defined elsewhere in the runtime; the spec only
    says that each takes a data pointer and a byte length.  A callback is
    therefore a name, and calling it is recorded as an [EvAddBlock] event. *)
Inductive Callback : Set :=
| addImageProtocolConformanceBlockCallback
| addImageTypeMetadataRecordBlockCallback.

(** [struct InspectArgs], lines 42-49. *)
Record InspectArgs : Set := mkInspectArgs {
  symbolName : string;
  addBlock : Callback;
  didInitializeLookup : bool
}.

(** The two statics of lines 51-61 are the only [InspectArgs] objects, so a
    pointer to one is one of two names. *)
Inductive InspectArgsPtr : Set :=
| ProtocolConformanceArgsPtr
| TypeMetadataRecordArgsPtr.

Module SectionInfo.
(** Modelled from the spec: [struct SectionInfo] is declared in
    ImageInspection.h; the spec gives it an unsigned 64-bit byte length
    and a data pointer, and the code copies [sizeof(uint64_t)] bytes into
    [size]. *)
Record t : Set := mk { size : Z; data : pointer }.
End SectionInfo.

Module SymbolInfo.
(** Modelled from the spec: [struct SymbolInfo] is declared in
    ImageInspection.h; its four fields are the ones [lookupSymbol]
    assigns. *)
Record t : Set := mk {
  fileName : cstring;
  baseAddress : pointer;
  symbolName : cstring;
  symbolAddress : pointer
}.
End SymbolInfo.

(** [Dl_info] of <dlfcn.h>. *)
Record Dl_info : Set := mkDl_info {
  dli_fname : cstring;
  dli_fbase : pointer;
  dli_sname : cstring;
  dli_saddr : pointer
}.

(** [struct dl_phdr_info] of <link.h>; the program headers are not read by
    this file. *)
Record dl_phdr_info : Set := mk_dl_phdr_info {
  dlpi_addr : Z;
  dlpi_name : cstring
}.

(* ===================================================================== *)
(** ** The platform *)
(* ===================================================================== *)

(** Why a [dlopen] call gave no handle.  The code never inspects this; it
    is here so that statements can talk about it. *)
Inductive DlFailure : Set := NotResident | OtherFailure.

Inductive PointerWidth : Set := Ptr32 | Ptr64.

Definition pointer_bits (pw : PointerWidth) : Z :=
  match pw with Ptr32 => 32 | Ptr64 => 64 end.

(** Everything the code takes from the build target and from the dynamic
    loader at the moment of a call. *)
Record Platform : Type := mkPlatform {
  (** [__ANDROID__] is defined. *)
  is_android : bool;
  (** width of [uintptr_t] *)
  uintptr_width : PointerWidth;
  (** byte order of the target *)
  big_endian : bool;
  (** the mapped memory of the loaded images *)
  memory : pointer -> byte;
  (** the value [dlopen(name, flags)] returns *)
  dlopen_result : cstring -> Z -> pointer;
  (** the reason when that value is null *)
  dlopen_failure : cstring -> DlFailure;
  (** the text [dlerror()] gives after that failure *)
  dlopen_error_text : cstring -> cstring;
  (** the value [dlsym(handle, name)] returns *)
  dlsym_result : pointer -> string -> pointer;
  (** the text [dlerror()] gives after a failed [dlsym] *)
  dlsym_error_text : pointer -> string -> cstring;
  (** [dladdr]: [None] when it returns 0, else the record it fills *)
  dladdr_result : pointer -> option Dl_info;
  (** the entries [dl_iterate_phdr] walks, in its order *)
  loaded_images : list dl_phdr_info;
  sizeof_dl_phdr_info : Z
}.

(** Flag values of <dlfcn.h> (glibc and bionic agree on them). *)
Definition RTLD_LAZY : Z := 1.
Definition RTLD_NOLOAD : Z := 4.

(* ===================================================================== *)
(** ** Process state, events and the monad *)
(* ===================================================================== *)

Record World : Set := mkWorld {
  ProtocolConformanceArgs : InspectArgs;
  TypeMetadataRecordArgs : InspectArgs;
  (** handles obtained from [dlopen] and not yet given to [dlclose], one
      entry per outstanding reference *)
  open_handles : list pointer;
  (** what the next [dlerror()] returns *)
  dl_last_error : cstring
}.

(** The static initialisers of lines 51-61, in a process that holds no
    handle yet. *)
Definition initial_world : World :=
  {| ProtocolConformanceArgs :=
       mkInspectArgs ProtocolConformancesSymbol
                     addImageProtocolConformanceBlockCallback false;
     TypeMetadataRecordArgs :=
       mkInspectArgs TypeMetadataRecordsSymbol
                     addImageTypeMetadataRecordBlockCallback false;
     open_handles := [];
     dl_last_error := None |}.

Definition deref (p : InspectArgsPtr) (w : World) : InspectArgs :=
  match p with
  | ProtocolConformanceArgsPtr => ProtocolConformanceArgs w
  | TypeMetadataRecordArgsPtr => TypeMetadataRecordArgs w
  end.

Definition set_flag (a : InspectArgs) (b : bool) : InspectArgs :=
  mkInspectArgs (symbolName a) (addBlock a) b.

Definition store_flag (p : InspectArgsPtr) (b : bool) (w : World) : World :=
  match p with
  | ProtocolConformanceArgsPtr =>
      mkWorld (set_flag (ProtocolConformanceArgs w) b)
              (TypeMetadataRecordArgs w) (open_handles w) (dl_last_error w)
  | TypeMetadataRecordArgsPtr =>
      mkWorld (ProtocolConformanceArgs w)
              (set_flag (TypeMetadataRecordArgs w) b)
              (open_handles w) (dl_last_error w)
  end.

Definition with_handles (hs : list pointer) (w : World) : World :=
  mkWorld (ProtocolConformanceArgs w) (TypeMetadataRecordArgs w)
          hs (dl_last_error w).

Definition with_error (e : cstring) (w : World) : World :=
  mkWorld (ProtocolConformanceArgs w) (TypeMetadataRecordArgs w)
          (open_handles w) e.

(** A call that leaves this file. *)
Inductive Event : Set :=
| EvDlopen (name : cstring) (flags : Z)
| EvDlsym (handle : pointer) (name : string)
| EvDlclose (handle : pointer)
| EvDlerror
| EvDladdr (addr : pointer)
| EvAddBlock (callback : Callback) (start : pointer) (size : Z).

Inductive Outcome (A : Type) : Type :=
| Returned (a : A)
| Terminated (diagnostic : string).
Arguments Returned {A} a.
Arguments Terminated {A} diagnostic.

Definition M (A : Type) : Type := World -> Outcome A * World * list Event.

Definition ret {A} (a : A) : M A := fun w => (Returned a, w, []).

Definition bind {A B} (m : M A) (k : A -> M B) : M B :=
  fun w =>
    match m w with
    | (Returned a, w1, e1) =>
        match k a w1 with
        | (o, w2, e2) => (o, w2, e1 ++ e2)
        end
    | (Terminated d, w1, e1) => (Terminated d, w1, e1)
    end.

Notation "x <- m ;; k" := (bind m (fun x => k))
  (at level 61, m at next level, right associativity).
Notation "m ;;; k" := (bind m (fun _ => k))
  (at level 61, right associativity).

Definition emit (e : Event) : M unit := fun w => (Returned tt, w, [e]).
Definition get : M World := fun w => (Returned w, w, []).
Definition modify (f : World -> World) : M unit :=
  fun w => (Returned tt, f w, []).

Definition outcome {A} (r : Outcome A * World * list Event) : Outcome A :=
  fst (fst r).
Definition world_after {A} (r : Outcome A * World * list Event) : World :=
  snd (fst r).
Definition events {A} (r : Outcome A * World * list Event) : list Event :=
  snd r.

(** Modelled from the spec: [fatalError] is declared in
    swift/Runtime/Debug.h and does not return; the spec says the process
    ends with a diagnostic. *)
Definition fatalError {A} (flags : Z) (message : string) : M A :=
  fun w => (Terminated message, w, []).

(** What [%s] prints for a string argument; a null pointer is printed as
    the C library prints it. *)
Definition percent_s (s : cstring) : string :=
  match s with Some t => t | None => "(null)" end.

(* ===================================================================== *)
(** ** Memory *)
(* ===================================================================== *)

Definition byte_value (b : byte) : Z := Z.of_N (Byte.to_N b).

(** The bytes [memcpy] copies: [n] bytes from [src] upwards. *)
Fixpoint memcpy_bytes (mem : pointer -> byte) (src : pointer) (n : nat)
  : list byte :=
  match n with
  | O => []
  | S k => mem src :: memcpy_bytes mem (src + 1) k
  end.

(** Value of an unsigned integer whose bytes are given lowest first. *)
Fixpoint le_value (bs : list byte) : Z :=
  match bs with
  | [] => 0
  | b :: rest => byte_value b + 256 * le_value rest
  end.

(** Value of an unsigned integer object from its bytes in address order. *)
Definition unsigned_of_bytes (be : bool) (bs : list byte) : Z :=
  le_value (if be then rev bs else bs).

Definition sizeof_uint64_t : Z := 8.

Definition remove_first (h : pointer) : list pointer -> list pointer :=
  fix go (l : list pointer) : list pointer :=
    match l with
    | [] => []
    | x :: rest => if x =? h then rest else x :: go rest
    end.

(* ===================================================================== *)
(** ** The code *)
(* ===================================================================== *)

Section Code.

Variable P : Platform.

(** *** Loader calls *)

Definition dlopen (name : cstring) (flags : Z) : M pointer :=
  emit (EvDlopen name flags) ;;;
  let handle := dlopen_result P name flags in
  (if is_null handle
   then modify (with_error (dlopen_error_text P name))
   else modify (fun w => with_handles (handle :: open_handles w) w)) ;;;
  ret handle.

Definition dlsym (handle : pointer) (name : string) : M pointer :=
  emit (EvDlsym handle name) ;;;
  let symbol := dlsym_result P handle name in
  (if is_null symbol
   then modify (with_error (dlsym_error_text P handle name))
   else ret tt) ;;;
  ret symbol.

Definition dlclose (handle : pointer) : M unit :=
  emit (EvDlclose handle) ;;;
  modify (fun w => with_handles (remove_first handle (open_handles w)) w).

(** [dlerror] gives the pending text and clears it. *)
Definition dlerror : M cstring :=
  emit EvDlerror ;;;
  w <- get ;;
  modify (with_error None) ;;;
  ret (dl_last_error w).

Definition dladdr (addr : pointer) : M (option Dl_info) :=
  emit (EvDladdr addr) ;;;
  ret (dladdr_result P addr).

(** Conversion of a 64-bit length to the [uintptr_t] parameter of the
    callback (line 46). *)
Definition to_uintptr_t (n : Z) : Z :=
  n mod 2 ^ pointer_bits (uintptr_width P).

(** A call through the [addBlock] function pointer. *)
Definition call_addBlock (f : Callback) (start : pointer) (size : Z)
  : M unit :=
  emit (EvAddBlock f start (to_uintptr_t size)).

(** *** getSectionInfo, lines 66-87 *)

Definition getSectionInfo (imageName : cstring) (sectionName : string)
  : M SectionInfo.t :=
  let sectionInfo := SectionInfo.mk 0 nullptr in
  handle <- dlopen imageName (Z.lor RTLD_LAZY RTLD_NOLOAD) ;;
  if is_null handle then
    if is_android P then
      ret sectionInfo
    else
      err <- dlerror ;;
      fatalError 0 ("dlopen() failed on `" ++ percent_s imageName
                      ++ "': " ++ percent_s err)%string
  else
    symbol <- dlsym handle sectionName ;;
    let sectionInfo :=
      if negb (is_null symbol) then
        let section := symbol in
        SectionInfo.mk
          (unsigned_of_bytes (big_endian P)
             (memcpy_bytes (memory P) section
                (Z.to_nat sizeof_uint64_t)))
          (section + sizeof_uint64_t)
      else sectionInfo in
    dlclose handle ;;;
    ret sectionInfo.

(** *** Lines 108-111 and 126-129

    Both callers end with the same three statements: look the section
    up, test its length, call the function pointer. *)

Definition load (p : InspectArgsPtr) : M InspectArgs :=
  w <- get ;;
  ret (deref p w).

Definition addSectionBlock (inspectArgs : InspectArgsPtr) (fname : cstring)
  : M unit :=
  a <- load inspectArgs ;;
  block <- getSectionInfo fname (symbolName a) ;;
  if 0 <? SectionInfo.size block then
    a <- load inspectArgs ;;
    call_addBlock (addBlock a) (SectionInfo.data block)
                  (SectionInfo.size block)
  else ret tt.

(** *** iteratePHDRCallback, lines 89-113 *)

Definition iteratePHDRCallback (info : dl_phdr_info) (size : Z)
           (data : InspectArgsPtr) : M Z :=
  let inspectArgs := data in
  let fname := dlpi_name info in
  modify (store_flag inspectArgs true) ;;;
  match fname with
  | None => ret 0
  | Some EmptyString => ret 0
  | Some _ =>
      addSectionBlock inspectArgs fname ;;;
      ret 0
  end.

(** *** dl_iterate_phdr

    The loader calls [callback] on each entry in turn until one call
    returns a non-zero value, and returns the value of the last call. *)

Fixpoint dl_iterate_phdr_over {D : Type} (images : list dl_phdr_info)
         (callback : dl_phdr_info -> Z -> D -> M Z) (data : D) : M Z :=
  match images with
  | [] => ret 0
  | info :: rest =>
      r <- callback info (sizeof_dl_phdr_info P) data ;;
      if r =? 0 then dl_iterate_phdr_over rest callback data else ret r
  end.

Definition dl_iterate_phdr {D : Type}
           (callback : dl_phdr_info -> Z -> D -> M Z) (data : D) : M Z :=
  dl_iterate_phdr_over (loaded_images P) callback data.

(** *** addBlockInImage, lines 117-130 *)

Definition addBlockInImage (inspectArgs : InspectArgsPtr) (addr : pointer)
  : M unit :=
  let fname : cstring := None in
  if negb (is_null addr) then
    r <- dladdr addr ;;
    match r with
    | None => ret tt
    | Some info =>
        match dli_fname info with
        | None => ret tt
        | Some _ => addSectionBlock inspectArgs (dli_fname info)
        end
    end
  else addSectionBlock inspectArgs fname.

(** *** initializeSectionLookup, lines 132-139 *)

Definition initializeSectionLookup (inspectArgs : InspectArgsPtr) : M unit :=
  addBlockInImage inspectArgs nullptr ;;;
  dl_iterate_phdr iteratePHDRCallback inspectArgs ;;;
  ret tt.

Definition initializeProtocolConformanceLookup : M unit :=
  initializeSectionLookup ProtocolConformanceArgsPtr.

Definition initializeTypeMetadataRecordLookup : M unit :=
  initializeSectionLookup TypeMetadataRecordArgsPtr.

(** *** swift_addNewDSOImage, lines 153-162 *)

Definition swift_addNewDSOImage (addr : pointer) : M unit :=
  w <- get ;;
  (if didInitializeLookup (ProtocolConformanceArgs w)
   then addBlockInImage ProtocolConformanceArgsPtr addr
   else ret tt) ;;;
  w <- get ;;
  (if didInitializeLookup (TypeMetadataRecordArgs w)
   then addBlockInImage TypeMetadataRecordArgsPtr addr
   else ret tt).

(** *** lookupSymbol, lines 164-175

    The record behind [info] is passed in and handed back next to the
    [int] result. *)

Definition lookupSymbol (address : pointer) (info : SymbolInfo.t)
  : M (Z * SymbolInfo.t) :=
  r <- dladdr address ;;
  match r with
  | None => ret (0, info)
  | Some dlinfo =>
      let info := SymbolInfo.mk (dli_fname dlinfo)
                    (SymbolInfo.baseAddress info)
                    (SymbolInfo.symbolName info)
                    (SymbolInfo.symbolAddress info) in
      let info := SymbolInfo.mk (SymbolInfo.fileName info)
                    (dli_fbase dlinfo)
                    (SymbolInfo.symbolName info)
                    (SymbolInfo.symbolAddress info) in
      let info := SymbolInfo.mk (SymbolInfo.fileName info)
                    (SymbolInfo.baseAddress info)
                    (dli_sname dlinfo)
                    (SymbolInfo.symbolAddress info) in
      let info := SymbolInfo.mk (SymbolInfo.fileName info)
                    (SymbolInfo.baseAddress info)
                    (SymbolInfo.symbolName info)
                    (dli_saddr dlinfo) in
      ret (1, info)
  end.

End Code.

(* ===================================================================== *)
(** ** Sequences of calls into the file *)
(* ===================================================================== *)

(** The entry points other code can reach. *)
Inductive ApiCall : Set :=
| CallInitializeProtocolConformanceLookup
| CallInitializeTypeMetadataRecordLookup
| CallAddNewDSOImage (addr : pointer)
| CallLookupSymbol (address : pointer) (info : SymbolInfo.t).

Definition run_call (P : Platform) (c : ApiCall) : M unit :=
  match c with
  | CallInitializeProtocolConformanceLookup =>
      initializeProtocolConformanceLookup P
  | CallInitializeTypeMetadataRecordLookup =>
      initializeTypeMetadataRecordLookup P
  | CallAddNewDSOImage addr => swift_addNewDSOImage P addr
  | CallLookupSymbol address info => lookupSymbol P address info ;;; ret tt
  end.

(** A history: each call sees the loader as it is at that moment. *)
Fixpoint run_calls (cs : list (Platform * ApiCall)) : M unit :=
  match cs with
  | [] => ret tt
  | (P, c) :: rest => run_call P c ;;; run_calls rest
  end.

(* ===================================================================== *)
(** ** Observations on event lists *)
(* ===================================================================== *)

Definition cstring_eqb (a b : cstring) : bool :=
  match a, b with
  | None, None => true
  | Some x, Some y => String.eqb x y
  | _, _ => false
  end.

Definition is_dlopen_of (name : cstring) (e : Event) : bool :=
  match e with
  | EvDlopen n _ => cstring_eqb n name
  | _ => false
  end.

(** How many times the image [name] was opened. *)
Definition count_dlopen (name : cstring) (evs : list Event) : nat :=
  List.length (filter (is_dlopen_of name) evs).

Definition is_addBlock (e : Event) : bool :=
  match e with EvAddBlock _ _ _ => true | _ => false end.

(** The calls made through the function pointer. *)
Definition addBlock_calls (evs : list Event) : list Event :=
  filter is_addBlock evs.

Definition is_section_lookup (e : Event) : bool :=
  match e with
  | EvDlopen _ _ | EvDlsym _ _ => true
  | _ => false
  end.

Definition is_dladdr (e : Event) : bool :=
  match e with EvDladdr _ => true | _ => false end.

(** How many enumeration entries carry the name [name]. *)
Definition count_entries (name : cstring) (images : list dl_phdr_info) : nat :=
  List.length (filter (fun i => cstring_eqb (dlpi_name i) name) images).

(** The other registry. *)
Definition other (p : InspectArgsPtr) : InspectArgsPtr :=
  match p with
  | ProtocolConformanceArgsPtr => TypeMetadataRecordArgsPtr
  | TypeMetadataRecordArgsPtr => ProtocolConformanceArgsPtr
  end.

(** The event is work done for the registry whose symbol is [sym] and whose
    callback is [cb]. *)
Definition event_for (sym : string) (cb : Callback) (e : Event) : Prop :=
  match e with
  | EvDlsym _ n => n = sym
  | EvAddBlock f _ _ => f = cb
  | _ => False
  end.

(** The constant fields still hold the values of the static initialisers. *)
Definition constants_intact (w : World) : Prop :=
  symbolName (ProtocolConformanceArgs w) = ProtocolConformancesSymbol /\
  addBlock (ProtocolConformanceArgs w)
    = addImageProtocolConformanceBlockCallback /\
  symbolName (TypeMetadataRecordArgs w) = TypeMetadataRecordsSymbol /\
  addBlock (TypeMetadataRecordArgs w)
    = addImageTypeMetadataRecordBlockCallback.

(* ===================================================================== *)
(** ** Two concrete processes, used to run the code *)
(* ===================================================================== *)

Module Demo.

(** The main executable carries a conformance section of 8 bytes at
    0x5000, libFoo.so one of 16 bytes at 0x6000, and libEmpty.so one whose
    length prefix is zero at 0x7000. *)
Definition mem (a : pointer) : byte :=
  if a =? 0x5000 then x08
  else if a =? 0x6000 then x10
  else x00.

Definition open (name : cstring) (flags : Z) : pointer :=
  match name with
  | None => 0x1000
  | Some n =>
      if String.eqb n "libFoo.so" then 0x1100
      else if String.eqb n "libEmpty.so" then 0x1200
      else nullptr
  end.

Definition sym (handle : pointer) (name : string) : pointer :=
  if String.eqb name ProtocolConformancesSymbol then
    if handle =? 0x1000 then 0x5000
    else if handle =? 0x1100 then 0x6000
    else if handle =? 0x1200 then 0x7000
    else nullptr
  else nullptr.

Definition addr_info (a : pointer) : option Dl_info :=
  if (0x6000 <=? a) && (a <? 0x7000)
  then Some (mkDl_info (Some "libFoo.so") 0x6000 (Some "foo_entry") 0x6100)
  else None.

Definition images : list dl_phdr_info :=
  [ mk_dl_phdr_info 0 (Some "");
    mk_dl_phdr_info 0x6000 (Some "libFoo.so");
    mk_dl_phdr_info 0x7000 (Some "libEmpty.so");
    mk_dl_phdr_info 0x8000 None ].

Definition platform (android : bool) (pw : PointerWidth) : Platform :=
  {| is_android := android;
     uintptr_width := pw;
     big_endian := false;
     memory := mem;
     dlopen_result := open;
     dlopen_failure := fun _ => NotResident;
     dlopen_error_text := fun _ => Some "image not loaded";
     dlsym_result := sym;
     dlsym_error_text := fun _ _ => Some "undefined symbol";
     dladdr_result := addr_info;
     loaded_images := images;
     sizeof_dl_phdr_info := 64 |}.

Definition linux : Platform := platform false Ptr64.
Definition android : Platform := platform true Ptr32.

(** The process once the conformance registry has been initialised. *)
Definition ready_world : World :=
  world_after (initializeProtocolConformanceLookup linux initial_world).

Definition blank_info : SymbolInfo.t := SymbolInfo.mk None 0 None 0.

End Demo.

(* ===================================================================== *)
(** ** Statements read off the specification *)
(* ===================================================================== *)

(** The flags every [dlopen] call of this file passes. *)
Definition lookup_flags : Z := Z.lor RTLD_LAZY RTLD_NOLOAD.

(** The "absent" result of [getSectionInfo]. *)
Definition absent : SectionInfo.t := SectionInfo.mk 0 nullptr.

(** The unsigned 64-bit number held by the 8 bytes at [a] on platform [P],
    written out byte by byte. *)
Definition stored_uint64 (P : Platform) (a : pointer) : Z :=
  let b i := byte_value (memory P (a + i)) in
  if big_endian P then
    b 7 + 2^8 * b 6 + 2^16 * b 5 + 2^24 * b 4
    + 2^32 * b 3 + 2^40 * b 2 + 2^48 * b 1 + 2^56 * b 0
  else
    b 0 + 2^8 * b 1 + 2^16 * b 2 + 2^24 * b 3
    + 2^32 * b 4 + 2^40 * b 5 + 2^48 * b 6 + 2^56 * b 7.

(** The diagnostic of line 74. *)
Definition dlopen_diagnostic (imageName err : cstring) : string :=
  ("dlopen() failed on `" ++ percent_s imageName ++ "': "
     ++ percent_s err)%string.

(** The reading of the specification in which the reason of a failed
    [dlopen] decides between "absent" and termination. *)
Definition failure_decided_by_reason : Prop :=
  forall (P : Platform) (imageName : cstring) (sectionName : string)
         (w : World),
    dlopen_result P imageName lookup_flags = nullptr ->
    (dlopen_failure P imageName = NotResident ->
     outcome (getSectionInfo P imageName sectionName w) = Returned absent)
    /\
    (dlopen_failure P imageName <> NotResident ->
     outcome (getSectionInfo P imageName sectionName w)
     = Terminated (dlopen_diagnostic imageName
                     (dlopen_error_text P imageName))).

(** The reading of the specification in which a null address makes the
    load notification do nothing at all. *)
Definition null_notification_is_noop : Prop :=
  forall (P : Platform) (w : World),
    swift_addNewDSOImage P nullptr w = (Returned tt, w, []).

(** The image a notification address stands for: the main executable for
    a null address, else the file [dladdr] names. *)
Definition image_of_address (P : Platform) (addr : pointer) : cstring :=
  if is_null addr then None
  else match dladdr_result P addr with
       | Some info => dli_fname info
       | None => None
       end.

(** The named section of image [name] is missing, or its length prefix is
    zero. *)
Definition missing_or_empty (P : Platform) (name : cstring) (sym : string)
  : Prop :=
  let symbol := dlsym_result P (dlopen_result P name lookup_flags) sym in
  symbol = nullptr \/ stored_uint64 P symbol = 0.

(** An event that is a call through the function pointer reports, for one
    of the two registries of [w], a section that [getSectionInfo] returned
    with a length above zero. *)
Definition reports_nonempty_section (P : Platform) (w : World) (e : Event)
  : Prop :=
  match e with
  | EvAddBlock cb start n =>
      exists (r : InspectArgsPtr) (name : cstring) (w0 : World)
             (block : SectionInfo.t),
        cb = addBlock (deref r w) /\
        outcome (getSectionInfo P name (symbolName (deref r w)) w0)
        = Returned block /\
        0 < SectionInfo.size block /\
        start = SectionInfo.data block /\
        n = to_uintptr_t P (SectionInfo.size block)
  | _ => True
  end.

(** An event [getSectionInfo] and the call through the function pointer
    can make, after the [dlopen], while the section of registry [r] is
    looked up in image [fname] from the state [w]. *)
Definition lookup_tail_event (P : Platform) (w : World) (r : InspectArgsPtr)
           (fname : cstring) (e : Event) : Prop :=
  match e with
  | EvDlsym _ n => n = symbolName (deref r w)
  | EvDlclose _ | EvDlerror => True
  | EvAddBlock f start n =>
      exists block,
        f = addBlock (deref r w) /\
        outcome (getSectionInfo P fname (symbolName (deref r w)) w)
        = Returned block /\
        0 < SectionInfo.size block /\
        start = SectionInfo.data block /\
        n = to_uintptr_t P (SectionInfo.size block)
  | EvDlopen _ _ | EvDladdr _ => False
  end.

(** An event of [addBlockInImage P r addr] started in [w]. *)
Definition notification_event (P : Platform) (w : World) (r : InspectArgsPtr)
           (addr : pointer) (e : Event) : Prop :=
  match e with
  | EvDladdr a => a = addr /\ addr <> nullptr
  | EvDlopen n f => n = image_of_address P addr /\ f = lookup_flags
  | _ => lookup_tail_event P w r (image_of_address P addr) e
  end.

(** An event of [iteratePHDRCallback P info size r] started in [w]. *)
Definition enumeration_event (P : Platform) (w : World) (r : InspectArgsPtr)
           (info : dl_phdr_info) (e : Event) : Prop :=
  match e with
  | EvDladdr _ => False
  | EvDlopen n f =>
      n = dlpi_name info /\ f = lookup_flags /\
      exists c s, n = Some (String c s)
  | _ => lookup_tail_event P (store_flag r true w) r (dlpi_name info) e
  end.

(** The entry carries the non-empty name [n]. *)
Definition named_entry (n : cstring) (info : dl_phdr_info) : bool :=
  match dlpi_name info with
  | Some (String _ _) => cstring_eqb (dlpi_name info) n
  | _ => false
  end.

(** An event that, if it names a symbol or a callback, names [sym] or
    [cb]. *)
Definition only_for (sym : string) (cb : Callback) (e : Event) : Prop :=
  match e with
  | EvDlsym _ n => n = sym
  | EvAddBlock f _ _ => f = cb
  | _ => True
  end.

(** With a null address nothing is resolved and only the main executable
    is opened. *)
Definition main_executable_only (e : Event) : Prop :=
  match e with
  | EvDladdr _ => False
  | EvDlopen name _ => name = None
  | _ => True
  end.

Definition flag (p : InspectArgsPtr) (w : World) : bool :=
  didInitializeLookup (deref p w).

(** The two registries are as they were. *)
Definition same_args (w w' : World) : Prop :=
  ProtocolConformanceArgs w' = ProtocolConformanceArgs w /\
  TypeMetadataRecordArgs w' = TypeMetadataRecordArgs w.

(** Both registries name the same symbols and callbacks in [w] and [w']. *)
Definition same_constants (w w' : World) : Prop :=
  forall r, symbolName (deref r w') = symbolName (deref r w) /\
            addBlock (deref r w') = addBlock (deref r w).

(** A flag that is set in [w] is set in [w']. *)
Definition flags_grow (w w' : World) : Prop :=
  forall r, flag r w = true -> flag r w' = true.

(** Every run of [m] relates the state it starts in to the state it
    leaves. *)
Definition preserves {A} (R : World -> World -> Prop) (m : M A) : Prop :=
  forall w, R w (world_after (m w)).

(** A computation that never writes to a registry. *)
Definition keeps_args {A} (m : M A) : Prop := preserves same_args m.

(** A computation all of whose events satisfy [Q]. *)
Definition emits_only {A} (Q : Event -> Prop) (m : M A) : Prop :=
  forall w, Forall Q (events (m w)).

(** Started in a state that satisfies [I], the computation leaves such a
    state and all its events satisfy [Q]. *)
Definition emits_under {A} (I : World -> Prop) (Q : Event -> Prop) (m : M A)
  : Prop :=
  forall w, I w -> I (world_after (m w)) /\ Forall Q (events (m w)).

Definition nonempty {A} (l : list A) : bool :=
  match l with [] => false | _ :: _ => true end.

(** What [dl_iterate_phdr] with [iteratePHDRCallback] does to the flag of
    the registry [r]: it is set as soon as one entry is visited. *)
Definition after_enumeration (P : Platform) (r : InspectArgsPtr) (w : World)
  : World :=
  if nonempty (loaded_images P) then store_flag r true w else w.

(* ===================================================================== *)
(** ** Further statements about the code *)
(* ===================================================================== *)

(** The process holds the same loader handles in [w'] as in [w]. *)
Definition same_handles (w w' : World) : Prop :=
  open_handles w' = open_handles w.

(** [m] never ends the process. *)
Definition always_returns {A} (m : M A) : Prop :=
  forall w, exists a, outcome (m w) = Returned a.

(** [m] ends the process only on a build that is not for Android, at a
    [dlopen] that gave no handle for one of the [allowed] images, and with
    the diagnostic of line 74 for that image. *)
Definition dies_only_at {A} (P : Platform) (allowed : cstring -> Prop)
           (m : M A) : Prop :=
  forall w d,
    outcome (m w) = Terminated d ->
    is_android P = false /\
    exists name,
      allowed name /\
      dlopen_result P name lookup_flags = nullptr /\
      d = dlopen_diagnostic name (dlopen_error_text P name).

(** The name is neither null nor empty (the test of line 101, negated). *)
Definition has_name (name : cstring) : bool :=
  match name with
  | Some (String _ _) => true
  | _ => false
  end.

(** The names [iteratePHDRCallback] does not skip, in enumeration order. *)
Definition enumerated_names (images : list dl_phdr_info) : list cstring :=
  filter has_name (map dlpi_name images).

(** The image [name] can be opened. *)
Definition opens (P : Platform) (name : cstring) : Prop :=
  dlopen_result P name lookup_flags <> nullptr.

(** The call through the function pointer that the section [sym] of the
    image [name] gives rise to: none if the image does not open, the
    symbol is missing or the length prefix is zero. *)
Definition section_report (P : Platform) (sym : string) (cb : Callback)
           (name : cstring) : list Event :=
  let handle := dlopen_result P name lookup_flags in
  let symbol := dlsym_result P handle sym in
  if is_null handle then []
  else if is_null symbol then []
  else if 0 <? stored_uint64 P symbol
       then [EvAddBlock cb (symbol + 8)
               (to_uintptr_t P (stored_uint64 P symbol))]
       else [].

(** What [m] returns and emits depends on the state only through the
    symbol names and callbacks of the registries. *)
Definition oblivious {A} (m : M A) : Prop :=
  forall w w',
    same_constants w w' ->
    outcome (m w) = outcome (m w') /\
    events (m w) = events (m w') /\
    same_constants (world_after (m w)) (world_after (m w')).

(** A [dlopen] event carries [RTLD_NOLOAD]. *)
Definition never_loads (e : Event) : Prop :=
  match e with
  | EvDlopen _ flags => Z.land flags RTLD_NOLOAD = RTLD_NOLOAD
  | _ => True
  end.

(** How many registries are initialised. *)
Definition initialized_registries (w : World) : nat :=
  ((if flag ProtocolConformanceArgsPtr w then 1 else 0)
   + (if flag TypeMetadataRecordArgsPtr w then 1 else 0))%nat.

(** The 8 bytes of a length prefix are all zero. *)
Definition zero_prefix (P : Platform) (a : pointer) : Prop :=
  Forall (fun b => b = x00)
         (memcpy_bytes (memory P) a (Z.to_nat sizeof_uint64_t)).

Module Scenario.

(** A process in which the enumeration also lists the vDSO, which cannot
    be opened, and in which the page at 0x8000 belongs to an image that
    has no file name. *)
Definition images : list dl_phdr_info :=
  [ mk_dl_phdr_info 0 (Some "");
    mk_dl_phdr_info 0x6000 (Some "libFoo.so");
    mk_dl_phdr_info 0x7fff0000 (Some "linux-vdso.so.1");
    mk_dl_phdr_info 0x7000 (Some "libEmpty.so") ].

Definition addr_info (a : pointer) : option Dl_info :=
  if (0x8000 <=? a) && (a <? 0x9000)
  then Some (mkDl_info None 0x8000 None nullptr)
  else Demo.addr_info a.

Definition platform (android : bool) (pw : PointerWidth) : Platform :=
  {| is_android := android;
     uintptr_width := pw;
     big_endian := false;
     memory := Demo.mem;
     dlopen_result := Demo.open;
     dlopen_failure := fun _ => NotResident;
     dlopen_error_text := fun _ => Some "image not loaded";
     dlsym_result := Demo.sym;
     dlsym_error_text := fun _ _ => Some "undefined symbol";
     dladdr_result := addr_info;
     loaded_images := images;
     sizeof_dl_phdr_info := 64 |}.

Definition linux : Platform := platform false Ptr64.
Definition android : Platform := platform true Ptr32.

(** Both registries initialised, on a process that lists no vDSO. *)
Definition both_ready : World :=
  world_after (initializeTypeMetadataRecordLookup Demo.linux
                 Demo.ready_world).

End Scenario.

Module TwoSections.

(** A process whose main executable carries both sections: the conformance
    section of 8 bytes at 0x5000 and a type-metadata section of 32 bytes
    at 0x5100. *)
Definition mem (a : pointer) : byte :=
  if a =? 0x5100 then x20 else Demo.mem a.

Definition sym (handle : pointer) (name : string) : pointer :=
  if String.eqb name TypeMetadataRecordsSymbol then
    if handle =? 0x1000 then 0x5100 else nullptr
  else Demo.sym handle name.

Definition linux : Platform :=
  {| is_android := false;
     uintptr_width := Ptr64;
     big_endian := false;
     memory := mem;
     dlopen_result := Demo.open;
     dlopen_failure := fun _ => NotResident;
     dlopen_error_text := fun _ => Some "image not loaded";
     dlsym_result := sym;
     dlsym_error_text := fun _ _ => Some "undefined symbol";
     dladdr_result := Demo.addr_info;
     loaded_images := Demo.images;
     sizeof_dl_phdr_info := 64 |}.

(** Both registries initialised on that process. *)
Definition both_ready : World :=
  world_after
    (initializeTypeMetadataRecordLookup linux
       (world_after (initializeProtocolConformanceLookup linux
                       initial_world))).

End TwoSections.

(* ===================================================================== *)
(** ** The monad *)
(* ===================================================================== *)

Lemma bind_returned {A B} (m : M A) (k : A -> M B) w a w1 e1 :
  m w = (Returned a, w1, e1) ->
  bind m k w = (outcome (k a w1), world_after (k a w1),
                e1 ++ events (k a w1)).
Proof.
  intros H. unfold bind. rewrite H.
  destruct (k a w1) as [[o w2] e2]. reflexivity.
Qed.

Lemma bind_terminated {A B} (m : M A) (k : A -> M B) w d w1 e1 :
  m w = (Terminated d, w1, e1) ->
  bind m k w = (Terminated d, w1, e1).
Proof. intros H. unfold bind. now rewrite H. Qed.

Lemma run_eta {A} (r : Outcome A * World * list Event) :
  r = (outcome r, world_after r, events r).
Proof. now destruct r as [[o w] e]. Qed.

Lemma same_args_refl w : same_args w w.
Proof. split; reflexivity. Qed.

Lemma same_args_trans w1 w2 w3 :
  same_args w1 w2 -> same_args w2 w3 -> same_args w1 w3.
Proof. intros [A B] [C D]. split; congruence. Qed.

Section Preservation.

Variable R : World -> World -> Prop.
Hypothesis R_refl : forall w, R w w.
Hypothesis R_trans : forall w1 w2 w3, R w1 w2 -> R w2 w3 -> R w1 w3.

Lemma preserves_ret {A} (a : A) : preserves R (ret a).
Proof. intros w. apply R_refl. Qed.

Lemma preserves_bind {A B} (m : M A) (k : A -> M B) :
  preserves R m -> (forall a, preserves R (k a)) -> preserves R (bind m k).
Proof.
  intros Hm Hk w. specialize (Hm w).
  destruct (m w) as [[[a|d] w1] e1] eqn:E.
  - rewrite (bind_returned m k w a w1 e1 E).
    eapply R_trans; [exact Hm|apply Hk].
  - now rewrite (bind_terminated m k w d w1 e1 E).
Qed.

Lemma preserves_dl_iterate_phdr_over {D} P images
      (callback : dl_phdr_info -> Z -> D -> M Z) (data : D) :
  (forall info size d, preserves R (callback info size d)) ->
  preserves R (dl_iterate_phdr_over P images callback data).
Proof.
  intros Hcb. induction images as [|info rest IH]; cbn [dl_iterate_phdr_over].
  - apply preserves_ret.
  - apply preserves_bind; [apply Hcb|].
    intros r. destruct (r =? 0); [exact IH|apply preserves_ret].
Qed.

End Preservation.

Lemma keeps_args_ret {A} (a : A) : keeps_args (ret a).
Proof. apply preserves_ret. apply same_args_refl. Qed.

Lemma keeps_args_bind {A B} (m : M A) (k : A -> M B) :
  keeps_args m -> (forall a, keeps_args (k a)) -> keeps_args (bind m k).
Proof. apply preserves_bind. apply same_args_trans. Qed.

Lemma emits_under_ret {A} I Q (a : A) : emits_under I Q (ret a).
Proof. intros w Hw. split; [exact Hw|constructor]. Qed.

Lemma emits_under_bind {A B} I Q (m : M A) (k : A -> M B) :
  emits_under I Q m -> (forall a, emits_under I Q (k a)) ->
  emits_under I Q (bind m k).
Proof.
  intros Hm Hk w Hw. destruct (Hm w Hw) as [Hi Hq].
  destruct (m w) as [[[a|d] w1] e1] eqn:E.
  - rewrite (bind_returned m k w a w1 e1 E). cbn in Hi, Hq |- *.
    destruct (Hk a w1 Hi) as [Hi2 Hq2].
    split; [exact Hi2|]. apply Forall_app. now split.
  - rewrite (bind_terminated m k w d w1 e1 E). now split.
Qed.

Lemma emits_under_dl_iterate_phdr_over {D} I Q P images
      (callback : dl_phdr_info -> Z -> D -> M Z) (data : D) :
  (forall info size d, emits_under I Q (callback info size d)) ->
  emits_under I Q (dl_iterate_phdr_over P images callback data).
Proof.
  intros Hcb. induction images as [|info rest IH]; cbn [dl_iterate_phdr_over].
  - apply emits_under_ret.
  - apply emits_under_bind; [apply Hcb|].
    intros r. destruct (r =? 0); [exact IH|apply emits_under_ret].
Qed.

Lemma emits_only_ret {A} Q (a : A) : emits_only Q (ret a).
Proof. intros w. constructor. Qed.

Lemma emits_only_bind {A B} Q (m : M A) (k : A -> M B) :
  emits_only Q m -> (forall a, emits_only Q (k a)) -> emits_only Q (bind m k).
Proof.
  intros Hm Hk w. specialize (Hm w).
  destruct (m w) as [[[a|d] w1] e1] eqn:E.
  - rewrite (bind_returned m k w a w1 e1 E). cbn.
    apply Forall_app. split; [exact Hm|apply Hk].
  - now rewrite (bind_terminated m k w d w1 e1 E).
Qed.

Lemma emits_only_weaken {A} (Q R : Event -> Prop) (m : M A) :
  (forall e, Q e -> R e) -> emits_only Q m -> emits_only R m.
Proof. intros H Hm w. eapply Forall_impl; [exact H|apply Hm]. Qed.

(* ===================================================================== *)
(** ** getSectionInfo *)
(* ===================================================================== *)

Lemma remove_first_head h l : remove_first h (h :: l) = l.
Proof. cbn. now rewrite Z.eqb_refl. Qed.

Lemma byte_value_range b : 0 <= byte_value b < 256.
Proof.
  unfold byte_value. pose proof (Byte.to_N_bounded b) as H.
  lia.
Qed.

Lemma unsigned_of_8_bytes P a :
  unsigned_of_bytes (big_endian P)
    (memcpy_bytes (memory P) a (Z.to_nat sizeof_uint64_t))
  = stored_uint64 P a.
Proof.
  unfold unsigned_of_bytes, stored_uint64.
  change (Z.to_nat sizeof_uint64_t) with 8%nat. cbn [memcpy_bytes].
  replace (a + 1 + 1) with (a + 2) by lia.
  replace (a + 2 + 1) with (a + 3) by lia.
  replace (a + 3 + 1) with (a + 4) by lia.
  replace (a + 4 + 1) with (a + 5) by lia.
  replace (a + 5 + 1) with (a + 6) by lia.
  replace (a + 6 + 1) with (a + 7) by lia.
  replace (memory P a) with (memory P (a + 0)) by (f_equal; lia).
  destruct (big_endian P); cbn [rev app le_value]; lia.
Qed.

Lemma stored_uint64_range P a : 0 <= stored_uint64 P a < 2 ^ 64.
Proof.
  unfold stored_uint64.
  pose proof (byte_value_range (memory P (a + 0))).
  pose proof (byte_value_range (memory P (a + 1))).
  pose proof (byte_value_range (memory P (a + 2))).
  pose proof (byte_value_range (memory P (a + 3))).
  pose proof (byte_value_range (memory P (a + 4))).
  pose proof (byte_value_range (memory P (a + 5))).
  pose proof (byte_value_range (memory P (a + 6))).
  pose proof (byte_value_range (memory P (a + 7))).
  destruct (big_endian P); cbn zeta; lia.
Qed.

Lemma dlopen_run P name flags w :
  dlopen P name flags w
  = (Returned (dlopen_result P name flags),
     (if is_null (dlopen_result P name flags)
      then with_error (dlopen_error_text P name) w
      else with_handles (dlopen_result P name flags :: open_handles w) w),
     [EvDlopen name flags]).
Proof.
  unfold dlopen, bind, emit, modify, ret.
  destruct (is_null (dlopen_result P name flags)); reflexivity.
Qed.

Lemma dlsym_run P handle name w :
  dlsym P handle name w
  = (Returned (dlsym_result P handle name),
     (if is_null (dlsym_result P handle name)
      then with_error (dlsym_error_text P handle name) w
      else w),
     [EvDlsym handle name]).
Proof.
  unfold dlsym, bind, emit, modify, ret.
  destruct (is_null (dlsym_result P handle name)); reflexivity.
Qed.

Lemma dlclose_run handle w :
  dlclose handle w
  = (Returned tt, with_handles (remove_first handle (open_handles w)) w,
     [EvDlclose handle]).
Proof. reflexivity. Qed.

Lemma dlerror_run w :
  dlerror w = (Returned (dl_last_error w), with_error None w, [EvDlerror]).
Proof. reflexivity. Qed.

Lemma dladdr_run P addr w :
  dladdr P addr w = (Returned (dladdr_result P addr), w, [EvDladdr addr]).
Proof. reflexivity. Qed.

(** What a call does once the handle is there. *)
Lemma getSectionInfo_opened P imageName sectionName w :
  dlopen_result P imageName lookup_flags <> nullptr ->
  getSectionInfo P imageName sectionName w
  = (let handle := dlopen_result P imageName lookup_flags in
     let symbol := dlsym_result P handle sectionName in
     (Returned (if is_null symbol then absent
                else SectionInfo.mk (stored_uint64 P symbol)
                                    (symbol + sizeof_uint64_t)),
      (if is_null symbol
       then with_error (dlsym_error_text P handle sectionName) w
       else w),
      [EvDlopen imageName lookup_flags; EvDlsym handle sectionName;
       EvDlclose handle])).
Proof.
  intros Hh. cbv zeta.
  assert (Hn : is_null (dlopen_result P imageName lookup_flags) = false)
    by (apply Z.eqb_neq; exact Hh).
  unfold getSectionInfo.
  change (Z.lor RTLD_LAZY RTLD_NOLOAD) with lookup_flags.
  erewrite bind_returned by apply dlopen_run. rewrite !Hn.
  erewrite bind_returned by apply dlsym_run.
  erewrite bind_returned by apply dlclose_run.
  unfold ret, outcome, world_after, events. cbn [fst snd app].
  rewrite unsigned_of_8_bytes.
  destruct (is_null (dlsym_result P _ sectionName)) eqn:Hs;
    destruct w; cbn [negb open_handles with_handles with_error
                     ProtocolConformanceArgs TypeMetadataRecordArgs
                     dl_last_error];
    rewrite remove_first_head; reflexivity.
Qed.

(** What a call does when [dlopen] gives a null handle. *)
Lemma getSectionInfo_not_opened P imageName sectionName w :
  dlopen_result P imageName lookup_flags = nullptr ->
  getSectionInfo P imageName sectionName w
  = if is_android P then
      (Returned absent, with_error (dlopen_error_text P imageName) w,
       [EvDlopen imageName lookup_flags])
    else
      (Terminated (dlopen_diagnostic imageName
                     (dlopen_error_text P imageName)),
       with_error None w,
       [EvDlopen imageName lookup_flags; EvDlerror]).
Proof.
  intros Hh.
  assert (Hn : is_null (dlopen_result P imageName lookup_flags) = true)
    by (apply Z.eqb_eq; exact Hh).
  unfold getSectionInfo.
  change (Z.lor RTLD_LAZY RTLD_NOLOAD) with lookup_flags.
  erewrite bind_returned by apply dlopen_run. rewrite !Hn.
  destruct (is_android P).
  - unfold ret, outcome, world_after, events. reflexivity.
  - erewrite bind_returned by apply dlerror_run.
    unfold fatalError, outcome, world_after, events.
    destruct w; reflexivity.
Qed.

Lemma getSectionInfo_keeps_args P imageName sectionName :
  keeps_args (getSectionInfo P imageName sectionName).
Proof.
  intros w.
  destruct (Z.eq_dec (dlopen_result P imageName lookup_flags) nullptr) as [E|E].
  - rewrite (getSectionInfo_not_opened _ _ _ _ E).
    destruct (is_android P); destruct w; split; reflexivity.
  - rewrite (getSectionInfo_opened _ _ _ _ E). cbv zeta.
    destruct (is_null _); destruct w; split; reflexivity.
Qed.

(** The first event of every call is the [dlopen] of the image, and no
    other [dlopen] follows. *)
Lemma getSectionInfo_events P imageName sectionName w :
  exists rest,
    events (getSectionInfo P imageName sectionName w)
    = EvDlopen imageName lookup_flags :: rest /\
    Forall (fun e => match e with
                     | EvDlsym _ n => n = sectionName
                     | EvDlclose _ | EvDlerror => True
                     | _ => False
                     end) rest.
Proof.
  destruct (Z.eq_dec (dlopen_result P imageName lookup_flags) nullptr) as [E|E].
  - rewrite (getSectionInfo_not_opened _ _ _ _ E).
    destruct (is_android P); eexists; split; try reflexivity;
      repeat constructor.
  - rewrite (getSectionInfo_opened _ _ _ _ E).
    eexists; split; [reflexivity|]. repeat constructor.
Qed.

(** C1: when the handle opens and the section symbol is present,
    [getSectionInfo] returns a range whose length is the unsigned 64-bit
    number held by the 8 bytes at the symbol's address and whose data
    pointer is that address plus 8. *)
Theorem getSectionInfo_reads_length_prefix :
  forall (P : Platform) (imageName : cstring) (sectionName : string)
         (w : World),
    let handle := dlopen_result P imageName lookup_flags in
    let symbol := dlsym_result P handle sectionName in
    handle <> nullptr ->
    symbol <> nullptr ->
    exists block,
      outcome (getSectionInfo P imageName sectionName w) = Returned block /\
      SectionInfo.size block = stored_uint64 P symbol /\
      0 <= SectionInfo.size block < 2 ^ 64 /\
      SectionInfo.data block = symbol + 8.
Proof.
  intros P imageName sectionName w handle symbol Hh Hs.
  rewrite (getSectionInfo_opened _ _ _ _ Hh). cbv zeta.
  fold handle. fold symbol.
  assert (Hn : is_null symbol = false) by (apply Z.eqb_neq; exact Hs).
  rewrite Hn. eexists. split; [reflexivity|]. cbn.
  repeat split; try apply stored_uint64_range.
Qed.

Lemma getSectionInfo_reads_length_prefix_witness :
  dlopen_result Demo.linux (Some "libFoo.so") lookup_flags <> nullptr /\
  dlsym_result Demo.linux
    (dlopen_result Demo.linux (Some "libFoo.so") lookup_flags)
    ProtocolConformancesSymbol <> nullptr /\
  exists block,
    outcome (getSectionInfo Demo.linux (Some "libFoo.so")
               ProtocolConformancesSymbol initial_world)
    = Returned block /\
    SectionInfo.size block = stored_uint64 Demo.linux 0x6000 /\
    0 <= SectionInfo.size block < 2 ^ 64 /\
    SectionInfo.data block = 0x6000 + 8.
Proof.
  assert (H1 : dlopen_result Demo.linux (Some "libFoo.so") lookup_flags
               <> nullptr) by (vm_compute; discriminate).
  assert (H2 : dlsym_result Demo.linux
                 (dlopen_result Demo.linux (Some "libFoo.so") lookup_flags)
                 ProtocolConformancesSymbol <> nullptr)
    by (vm_compute; discriminate).
  split; [exact H1|]. split; [exact H2|].
  exact (getSectionInfo_reads_length_prefix Demo.linux (Some "libFoo.so")
           ProtocolConformancesSymbol initial_world H1 H2).
Defined.

(** C2, as the code has it: when [dlopen] gives no handle, what happens is
    fixed by the build target and not by the reason of the failure.  A
    build for Android returns the absent result and ends nothing; any
    other build ends the process with the diagnostic of line 74, which
    names the image and carries the text of [dlerror]. *)
Theorem getSectionInfo_open_failure_by_target :
  forall (P : Platform) (imageName : cstring) (sectionName : string)
         (w : World),
    dlopen_result P imageName lookup_flags = nullptr ->
    (is_android P = true ->
     getSectionInfo P imageName sectionName w
     = (Returned absent, with_error (dlopen_error_text P imageName) w,
        [EvDlopen imageName lookup_flags]))
    /\
    (is_android P = false ->
     outcome (getSectionInfo P imageName sectionName w)
     = Terminated (dlopen_diagnostic imageName
                     (dlopen_error_text P imageName))).
Proof.
  intros P imageName sectionName w Hh.
  rewrite (getSectionInfo_not_opened _ _ _ _ Hh).
  split; intros Ha; rewrite Ha; reflexivity.
Qed.

Lemma getSectionInfo_open_failure_by_target_witness :
  outcome (getSectionInfo Demo.linux (Some "linux-vdso.so.1")
             ProtocolConformancesSymbol initial_world)
  = Terminated (dlopen_diagnostic (Some "linux-vdso.so.1")
                  (Some "image not loaded"))
  /\
  getSectionInfo Demo.android (Some "linux-vdso.so.1")
    ProtocolConformancesSymbol initial_world
  = (Returned absent, with_error (Some "image not loaded") initial_world,
     [EvDlopen (Some "linux-vdso.so.1") lookup_flags]).
Proof.
  split.
  - apply (getSectionInfo_open_failure_by_target Demo.linux
             (Some "linux-vdso.so.1") ProtocolConformancesSymbol
             initial_world); reflexivity.
  - apply (getSectionInfo_open_failure_by_target Demo.android
             (Some "linux-vdso.so.1") ProtocolConformancesSymbol
             initial_world); reflexivity.
Defined.

(** C2, as stated, fails: on a build that is not for Android, an image
    that is simply not resident ends the process. *)
Lemma not_resident_image_terminates_process :
  dlopen_result Demo.linux (Some "linux-vdso.so.1") lookup_flags = nullptr /\
  dlopen_failure Demo.linux (Some "linux-vdso.so.1") = NotResident /\
  outcome (getSectionInfo Demo.linux (Some "linux-vdso.so.1")
             ProtocolConformancesSymbol initial_world)
  = Terminated "dlopen() failed on `linux-vdso.so.1': image not loaded" /\
  ~ failure_decided_by_reason.
Proof.
  split; [reflexivity|]. split; [reflexivity|]. split; [reflexivity|].
  intros H.
  destruct (H Demo.linux (Some "linux-vdso.so.1") ProtocolConformancesSymbol
              initial_world eq_refl) as [Habs _].
  specialize (Habs eq_refl). vm_compute in Habs. discriminate Habs.
Qed.

(** C9: whenever [dlopen] gave a handle, [getSectionInfo] returns, its
    last call to the loader is the [dlclose] of that handle, and the
    process holds the same handles as before the call; this is so both
    when the section symbol is found and when it is not. *)
Theorem getSectionInfo_releases_handle :
  forall (P : Platform) (imageName : cstring) (sectionName : string)
         (w : World),
    let handle := dlopen_result P imageName lookup_flags in
    handle <> nullptr ->
    (exists block,
       outcome (getSectionInfo P imageName sectionName w) = Returned block) /\
    events (getSectionInfo P imageName sectionName w)
    = [EvDlopen imageName lookup_flags; EvDlsym handle sectionName]
        ++ [EvDlclose handle] /\
    open_handles (world_after (getSectionInfo P imageName sectionName w))
    = open_handles w.
Proof.
  intros P imageName sectionName w handle Hh.
  rewrite (getSectionInfo_opened _ _ _ _ Hh). cbv zeta. fold handle.
  split; [eexists; reflexivity|]. split; [reflexivity|].
  cbn. destruct (is_null _); destruct w; reflexivity.
Qed.

Lemma getSectionInfo_releases_handle_witness :
  dlopen_result Demo.linux (Some "libFoo.so") lookup_flags <> nullptr /\
  events (getSectionInfo Demo.linux (Some "libFoo.so")
            TypeMetadataRecordsSymbol initial_world)
  = [EvDlopen (Some "libFoo.so") lookup_flags;
     EvDlsym 0x1100 TypeMetadataRecordsSymbol] ++ [EvDlclose 0x1100] /\
  open_handles (world_after (getSectionInfo Demo.linux (Some "libFoo.so")
                               TypeMetadataRecordsSymbol initial_world))
  = [].
Proof.
  assert (H : dlopen_result Demo.linux (Some "libFoo.so") lookup_flags
              <> nullptr) by (vm_compute; discriminate).
  split; [exact H|].
  exact (proj2 (getSectionInfo_releases_handle Demo.linux (Some "libFoo.so")
                  TypeMetadataRecordsSymbol initial_world H)).
Defined.

(* ===================================================================== *)
(** ** lookupSymbol *)
(* ===================================================================== *)

Lemma lookupSymbol_run P address info w :
  lookupSymbol P address info w
  = (Returned
       match dladdr_result P address with
       | None => (0, info)
       | Some d => (1, SymbolInfo.mk (dli_fname d) (dli_fbase d)
                         (dli_sname d) (dli_saddr d))
       end,
     w, [EvDladdr address]).
Proof.
  unfold lookupSymbol.
  erewrite bind_returned by apply dladdr_run.
  destruct (dladdr_result P address); reflexivity.
Qed.

Lemma addBlockInImage_unresolved P inspectArgs addr w :
  addr <> nullptr ->
  dladdr_result P addr = None ->
  addBlockInImage P inspectArgs addr w = (Returned tt, w, [EvDladdr addr]).
Proof.
  intros Ha Hd. unfold addBlockInImage.
  assert (Hn : is_null addr = false) by (apply Z.eqb_neq; exact Ha).
  rewrite Hn. cbn [negb].
  erewrite bind_returned by apply dladdr_run.
  rewrite Hd. reflexivity.
Qed.

(** C8: for a non-null address the platform cannot attribute to a loaded
    image, [lookupSymbol] returns 0 and the [dladdr] step of
    [addBlockInImage] returns without doing anything more; when the
    attribution succeeds, [lookupSymbol] returns 1 with the image's file
    path, its base address and the nearest symbol's name and address; in
    no case does [lookupSymbol] end the process. *)
Theorem lookupSymbol_resolves_address :
  forall (P : Platform) (address : pointer) (info : SymbolInfo.t)
         (w : World),
    address <> nullptr ->
    (dladdr_result P address = None ->
     outcome (lookupSymbol P address info w) = Returned (0, info) /\
     forall inspectArgs,
       addBlockInImage P inspectArgs address w
       = (Returned tt, w, [EvDladdr address]))
    /\
    (forall d,
       dladdr_result P address = Some d ->
       exists info',
         outcome (lookupSymbol P address info w) = Returned (1, info') /\
         SymbolInfo.fileName info' = dli_fname d /\
         SymbolInfo.baseAddress info' = dli_fbase d /\
         SymbolInfo.symbolName info' = dli_sname d /\
         SymbolInfo.symbolAddress info' = dli_saddr d)
    /\
    (exists result,
       outcome (lookupSymbol P address info w) = Returned result).
Proof.
  intros P address info w Ha. rewrite lookupSymbol_run.
  split; [|split].
  - intros Hd. rewrite Hd. split; [reflexivity|].
    intros r. now apply addBlockInImage_unresolved.
  - intros d Hd. rewrite Hd. eexists. split; [reflexivity|].
    repeat split.
  - eexists. reflexivity.
Qed.

Lemma lookupSymbol_resolves_address_witness :
  0x6010 <> nullptr /\
  dladdr_result Demo.linux 0x6010
  = Some (mkDl_info (Some "libFoo.so") 0x6000 (Some "foo_entry") 0x6100) /\
  exists info',
    outcome (lookupSymbol Demo.linux 0x6010 Demo.blank_info initial_world)
    = Returned (1, info') /\
    SymbolInfo.fileName info' = Some "libFoo.so" /\
    SymbolInfo.baseAddress info' = 0x6000 /\
    SymbolInfo.symbolName info' = Some "foo_entry" /\
    SymbolInfo.symbolAddress info' = 0x6100.
Proof.
  assert (Ha : 0x6010 <> nullptr) by (vm_compute; discriminate).
  split; [exact Ha|]. split; [reflexivity|].
  exact (proj1 (proj2 (lookupSymbol_resolves_address Demo.linux 0x6010
                         Demo.blank_info initial_world Ha))
           _ eq_refl).
Defined.

(** C10: when [dladdr] fails, [lookupSymbol] returns 0 and hands the
    caller's record back with every field as it was; a record that comes
    back changed comes with the return value 1. *)
Theorem lookupSymbol_failure_leaves_info :
  forall (P : Platform) (address : pointer) (info : SymbolInfo.t)
         (w : World),
    (dladdr_result P address = None ->
     outcome (lookupSymbol P address info w) = Returned (0, info))
    /\
    (forall code info',
       outcome (lookupSymbol P address info w) = Returned (code, info') ->
       info' <> info ->
       code = 1 /\ dladdr_result P address <> None).
Proof.
  intros P address info w. rewrite lookupSymbol_run.
  split.
  - intros Hd. now rewrite Hd.
  - intros code info' H Hne. cbn in H.
    destruct (dladdr_result P address).
    + inversion H; subst. split; [reflexivity|discriminate].
    + inversion H; subst. now elim Hne.
Qed.

Lemma lookupSymbol_failure_leaves_info_witness :
  dladdr_result Demo.linux 0x9000 = None /\
  outcome (lookupSymbol Demo.linux 0x9000
             (SymbolInfo.mk (Some "old") 1 (Some "kept") 2) initial_world)
  = Returned (0, SymbolInfo.mk (Some "old") 1 (Some "kept") 2).
Proof.
  split; [reflexivity|].
  apply (proj1 (lookupSymbol_failure_leaves_info Demo.linux 0x9000
                  (SymbolInfo.mk (Some "old") 1 (Some "kept") 2)
                  initial_world)).
  reflexivity.
Defined.

(* ===================================================================== *)
(** ** Reporting a section: lines 108-111 and 126-129 *)
(* ===================================================================== *)

Lemma same_args_deref w w' r : same_args w w' -> deref r w' = deref r w.
Proof. intros [A B]. destruct r; assumption. Qed.

Lemma load_run r w : load r w = (Returned (deref r w), w, []).
Proof. reflexivity. Qed.

Lemma addSectionBlock_run P r fname w :
  addSectionBlock P r fname w
  = match getSectionInfo P fname (symbolName (deref r w)) w with
    | (Returned block, w1, e1) =>
        (Returned tt, w1,
         e1 ++ (if 0 <? SectionInfo.size block
                then [EvAddBlock (addBlock (deref r w))
                        (SectionInfo.data block)
                        (to_uintptr_t P (SectionInfo.size block))]
                else []))
    | (Terminated d, w1, e1) => (Terminated d, w1, e1)
    end.
Proof.
  pose proof (getSectionInfo_keeps_args P fname (symbolName (deref r w)) w)
    as Hk.
  unfold addSectionBlock.
  erewrite bind_returned by apply load_run.
  destruct (getSectionInfo P fname (symbolName (deref r w)) w)
    as [[[block|d] w1] e1] eqn:E.
  - erewrite bind_returned by exact E.
    cbn [world_after fst snd] in Hk.
    destruct (0 <? SectionInfo.size block).
    + erewrite bind_returned by apply load_run.
      rewrite (same_args_deref _ _ r Hk). reflexivity.
    + reflexivity.
  - erewrite bind_terminated by exact E. reflexivity.
Qed.

Lemma addSectionBlock_keeps_args P r fname :
  keeps_args (addSectionBlock P r fname).
Proof.
  intros w. rewrite addSectionBlock_run.
  pose proof (getSectionInfo_keeps_args P fname (symbolName (deref r w)) w)
    as Hk.
  destruct (getSectionInfo P fname (symbolName (deref r w)) w)
    as [[[block|d] w1] e1]; exact Hk.
Qed.

Lemma addBlockInImage_keeps_args P r addr :
  keeps_args (addBlockInImage P r addr).
Proof.
  unfold addBlockInImage.
  destruct (negb (is_null addr)).
  - apply keeps_args_bind.
    + intros w. apply same_args_refl.
    + intros [info|]; [|apply keeps_args_ret].
      destruct (dli_fname info);
        [apply addSectionBlock_keeps_args|apply keeps_args_ret].
  - apply addSectionBlock_keeps_args.
Qed.

Lemma get_keeps_args : keeps_args get.
Proof. intros w. apply same_args_refl. Qed.

Lemma swift_addNewDSOImage_keeps_args P addr :
  keeps_args (swift_addNewDSOImage P addr).
Proof.
  unfold swift_addNewDSOImage.
  apply keeps_args_bind; [apply get_keeps_args|]. intros w1.
  apply keeps_args_bind.
  - destruct (didInitializeLookup _);
      [apply addBlockInImage_keeps_args|apply keeps_args_ret].
  - intros _. apply keeps_args_bind; [apply get_keeps_args|]. intros w2.
    destruct (didInitializeLookup _);
      [apply addBlockInImage_keeps_args|apply keeps_args_ret].
Qed.

Lemma lookupSymbol_keeps_args P address info :
  keeps_args (lookupSymbol P address info).
Proof. intros w. rewrite lookupSymbol_run. apply same_args_refl. Qed.

(* ===================================================================== *)
(** ** The initialised flag *)
(* ===================================================================== *)

Lemma flag_store_same r b w : flag r (store_flag r b w) = b.
Proof. destruct r; reflexivity. Qed.

Lemma deref_store_other r b w :
  deref (other r) (store_flag r b w) = deref (other r) w.
Proof. destruct r; reflexivity. Qed.

Lemma store_flag_twice r b w :
  store_flag r b (store_flag r b w) = store_flag r b w.
Proof. destruct r; reflexivity. Qed.

Lemma same_args_store r b w w' :
  same_args w w' -> same_args (store_flag r b w) (store_flag r b w').
Proof.
  intros [A B]. destruct r; split; cbn; congruence.
Qed.

Lemma same_args_flag w w' r : same_args w w' -> flag r w' = flag r w.
Proof. intros H. unfold flag. now rewrite (same_args_deref _ _ r H). Qed.

Lemma flags_grow_refl w : flags_grow w w.
Proof. intros r H. exact H. Qed.

Lemma flags_grow_trans w1 w2 w3 :
  flags_grow w1 w2 -> flags_grow w2 w3 -> flags_grow w1 w3.
Proof. intros A B r H. apply B, A, H. Qed.

Lemma same_args_flags_grow w w' : same_args w w' -> flags_grow w w'.
Proof. intros H r Hr. now rewrite (same_args_flag _ _ r H). Qed.

Lemma store_true_flags_grow r w : flags_grow w (store_flag r true w).
Proof. intros q H. destruct r, q; cbn in *; auto. Qed.

Lemma keeps_args_grows {A} (m : M A) :
  keeps_args m -> preserves flags_grow m.
Proof. intros H w. apply same_args_flags_grow, H. Qed.

(** The registries after one callback are those of the state in which
    only the flag of [data] has been set. *)
Lemma iteratePHDRCallback_args P info size data w :
  same_args (store_flag data true w)
            (world_after (iteratePHDRCallback P info size data w)).
Proof.
  unfold iteratePHDRCallback.
  erewrite bind_returned by reflexivity. cbn [world_after fst snd].
  destruct (dlpi_name info) as [[|c s]|]; try apply same_args_refl.
  apply keeps_args_bind; [apply addSectionBlock_keeps_args|].
  intros _. apply keeps_args_ret.
Qed.

Lemma dl_iterate_phdr_over_args P images r w :
  same_args (if nonempty images then store_flag r true w else w)
            (world_after
               (dl_iterate_phdr_over P images (iteratePHDRCallback P) r w)).
Proof.
  revert w. induction images as [|info rest IH]; intros w.
  - apply same_args_refl.
  - cbn [nonempty dl_iterate_phdr_over].
    pose proof (iteratePHDRCallback_args P info (sizeof_dl_phdr_info P) r w)
      as Hcb.
    destruct (iteratePHDRCallback P info (sizeof_dl_phdr_info P) r w)
      as [[[z|d] w1] e1] eqn:E.
    + erewrite bind_returned by exact E. cbn [world_after fst snd] in *.
      destruct (z =? 0).
      * eapply same_args_trans; [|apply IH].
        destruct (nonempty rest); [|exact Hcb].
        rewrite <- (store_flag_twice r true w).
        now apply same_args_store.
      * exact Hcb.
    + erewrite bind_terminated by exact E. exact Hcb.
Qed.

Lemma iteratePHDRCallback_grows P info size data :
  preserves flags_grow (iteratePHDRCallback P info size data).
Proof.
  intros w. eapply flags_grow_trans; [apply store_true_flags_grow|].
  apply same_args_flags_grow, iteratePHDRCallback_args.
Qed.

Lemma initializeSectionLookup_grows P r :
  preserves flags_grow (initializeSectionLookup P r).
Proof.
  unfold initializeSectionLookup, dl_iterate_phdr.
  apply preserves_bind; [apply flags_grow_trans| |].
  - apply keeps_args_grows, addBlockInImage_keeps_args.
  - intros _.
    apply preserves_bind; [apply flags_grow_trans| |].
    + apply preserves_dl_iterate_phdr_over;
        [apply flags_grow_refl|apply flags_grow_trans|].
      intros. apply iteratePHDRCallback_grows.
    + intros _. apply preserves_ret, flags_grow_refl.
Qed.

Lemma run_call_grows P c : preserves flags_grow (run_call P c).
Proof.
  destruct c; cbn [run_call].
  - apply initializeSectionLookup_grows.
  - apply initializeSectionLookup_grows.
  - apply keeps_args_grows, swift_addNewDSOImage_keeps_args.
  - apply keeps_args_grows, keeps_args_bind;
      [apply lookupSymbol_keeps_args|intros; apply keeps_args_ret].
Qed.

Lemma run_calls_grows cs : preserves flags_grow (run_calls cs).
Proof.
  induction cs as [|[P c] rest IH]; cbn [run_calls].
  - apply preserves_ret, flags_grow_refl.
  - apply preserves_bind; [apply flags_grow_trans|apply run_call_grows|].
    intros _. exact IH.
Qed.

(** The registries when [initializeSectionLookup] is over: the flag is set
    exactly when the first statement returned and the enumeration visited
    an entry. *)
Lemma initializeSectionLookup_args P r w :
  same_args
    (match outcome (addBlockInImage P r nullptr w) with
     | Returned _ => after_enumeration P r w
     | Terminated _ => w
     end)
    (world_after (initializeSectionLookup P r w)).
Proof.
  unfold initializeSectionLookup, dl_iterate_phdr, after_enumeration.
  pose proof (addBlockInImage_keeps_args P r nullptr w) as H1.
  destruct (addBlockInImage P r nullptr w) as [[[u|d] w1] e1] eqn:E.
  - erewrite bind_returned by exact E. cbn [outcome world_after fst snd] in *.
    pose proof (dl_iterate_phdr_over_args P (loaded_images P) r w1) as H2.
    destruct (dl_iterate_phdr_over P (loaded_images P)
                (iteratePHDRCallback P) r w1) as [[[z|d] w2] e2] eqn:E2.
    + erewrite bind_returned by exact E2. cbn [ret world_after fst snd] in *.
      eapply same_args_trans; [|exact H2].
      destruct (nonempty (loaded_images P)); [|exact H1].
      now apply same_args_store.
    + erewrite bind_terminated by exact E2. cbn [world_after fst snd] in *.
      eapply same_args_trans; [|exact H2].
      destruct (nonempty (loaded_images P)); [|exact H1].
      now apply same_args_store.
  - erewrite bind_terminated by exact E. exact H1.
Qed.

(** C3: the flag of each registry is false at start; a call of
    [iteratePHDRCallback] sets the flag of its registry and leaves the other
    registry alone; [dl_iterate_phdr] writes nothing by itself; in
    [initializeSectionLookup] the statement before the enumeration writes
    nothing and the state at return is the one the enumeration left, with
    the flag set exactly when an entry was visited; no other function
    writes to a registry; and through any history of calls a flag that is
    set stays set. *)
Theorem didInitializeLookup_set_only_in_callback :
  (forall r, flag r initial_world = false) /\
  (forall P info size r w,
     flag r (world_after (iteratePHDRCallback P info size r w)) = true /\
     deref (other r) (world_after (iteratePHDRCallback P info size r w))
     = deref (other r) w) /\
  (forall P (D : Type) (callback : dl_phdr_info -> Z -> D -> M Z) (data : D),
     (forall info size d, keeps_args (callback info size d)) ->
     keeps_args (dl_iterate_phdr P callback data)) /\
  (forall P r w,
     same_args w (world_after (addBlockInImage P r nullptr w)) /\
     same_args
       (match outcome (addBlockInImage P r nullptr w) with
        | Returned _ => after_enumeration P r w
        | Terminated _ => w
        end)
       (world_after (initializeSectionLookup P r w))) /\
  (forall P r imageName sectionName addr address info,
     keeps_args (getSectionInfo P imageName sectionName) /\
     keeps_args (addBlockInImage P r addr) /\
     keeps_args (swift_addNewDSOImage P addr) /\
     keeps_args (lookupSymbol P address info)) /\
  (forall cs r w,
     flag r w = true -> flag r (world_after (run_calls cs w)) = true).
Proof.
  split; [intros []; reflexivity|].
  split.
  { intros P info size r w.
    pose proof (iteratePHDRCallback_args P info size r w) as H.
    split.
    - rewrite (same_args_flag _ _ r H). apply flag_store_same.
    - rewrite (same_args_deref _ _ (other r) H). apply deref_store_other. }
  split.
  { intros P D callback data Hcb. unfold dl_iterate_phdr.
    apply preserves_dl_iterate_phdr_over;
      [apply same_args_refl|apply same_args_trans|exact Hcb]. }
  split.
  { intros P r w. split.
    - apply addBlockInImage_keeps_args.
    - apply initializeSectionLookup_args. }
  split.
  { intros. split; [|split; [|split]].
    - apply getSectionInfo_keeps_args.
    - apply addBlockInImage_keeps_args.
    - apply swift_addNewDSOImage_keeps_args.
    - apply lookupSymbol_keeps_args. }
  intros cs r w H. exact (run_calls_grows cs w r H).
Qed.

Lemma didInitializeLookup_set_only_in_callback_witness :
  flag ProtocolConformanceArgsPtr Demo.ready_world = true /\
  flag ProtocolConformanceArgsPtr
    (world_after
       (run_calls [(Demo.linux, CallAddNewDSOImage 0x6010);
                   (Demo.android, CallInitializeTypeMetadataRecordLookup);
                   (Demo.linux, CallLookupSymbol 0x6010 Demo.blank_info)]
          Demo.ready_world))
  = true /\
  keeps_args (dl_iterate_phdr Demo.linux
                (fun (_ : dl_phdr_info) (_ : Z) (_ : unit) => ret 0) tt).
Proof.
  assert (H : flag ProtocolConformanceArgsPtr Demo.ready_world = true)
    by reflexivity.
  split; [exact H|]. split.
  - exact (proj2 (proj2 (proj2 (proj2 (proj2
             didInitializeLookup_set_only_in_callback)))) _ _ _ H).
  - apply (proj1 (proj2 (proj2 didInitializeLookup_set_only_in_callback))).
    intros info size d w. split; reflexivity.
Defined.

(* ===================================================================== *)
(** ** swift_addNewDSOImage *)
(* ===================================================================== *)

Lemma get_run w : get w = (Returned w, w, []).
Proof. reflexivity. Qed.

Lemma ret_run {A} (a : A) w : ret a w = (Returned a, w, []).
Proof. reflexivity. Qed.

(** With the first registry not initialised only the second test is left. *)
Lemma swift_addNewDSOImage_first_skipped P addr w :
  flag ProtocolConformanceArgsPtr w = false ->
  swift_addNewDSOImage P addr w
  = if flag TypeMetadataRecordArgsPtr w
    then addBlockInImage P TypeMetadataRecordArgsPtr addr w
    else (Returned tt, w, []).
Proof.
  intros H. unfold swift_addNewDSOImage, flag in *. cbn [deref] in *.
  erewrite bind_returned by apply get_run. rewrite H.
  erewrite bind_returned by apply ret_run.
  erewrite bind_returned by apply get_run.
  cbn [app outcome world_after events fst snd].
  destruct (didInitializeLookup (TypeMetadataRecordArgs w));
    [symmetry; apply run_eta|reflexivity].
Qed.

(** With the second registry not initialised only the first test counts. *)
Lemma swift_addNewDSOImage_second_skipped P addr w :
  flag TypeMetadataRecordArgsPtr w = false ->
  swift_addNewDSOImage P addr w
  = if flag ProtocolConformanceArgsPtr w
    then addBlockInImage P ProtocolConformanceArgsPtr addr w
    else (Returned tt, w, []).
Proof.
  intros H. unfold swift_addNewDSOImage, flag in *. cbn [deref] in *.
  erewrite bind_returned by apply get_run.
  cbn [app outcome world_after events fst snd].
  destruct (didInitializeLookup (ProtocolConformanceArgs w)).
  - pose proof (addBlockInImage_keeps_args P ProtocolConformanceArgsPtr
                  addr w) as [_ Hk].
    destruct (addBlockInImage P ProtocolConformanceArgsPtr addr w)
      as [[[[]|d] w1] e1] eqn:E.
    + erewrite bind_returned by exact E.
      erewrite bind_returned by apply get_run.
      cbn [world_after fst snd] in Hk. rewrite Hk, H.
      cbn. now rewrite app_nil_r.
    + erewrite bind_terminated by exact E. reflexivity.
  - erewrite bind_returned by apply ret_run.
    erewrite bind_returned by apply get_run.
    rewrite H. reflexivity.
Qed.

Lemma addSectionBlock_events P r fname w :
  exists rest,
    events (addSectionBlock P r fname w)
    = EvDlopen fname lookup_flags :: rest /\
    Forall (lookup_tail_event P w r fname) rest.
Proof.
  rewrite addSectionBlock_run.
  destruct (getSectionInfo_events P fname (symbolName (deref r w)) w)
    as [rest [He Hf]].
  assert (Ht : Forall (lookup_tail_event P w r fname) rest).
  { eapply Forall_impl; [|exact Hf]. intros [] H; cbn in *; tauto. }
  destruct (getSectionInfo P fname (symbolName (deref r w)) w)
    as [[[block|d] w1] e1] eqn:E; cbn [events snd] in *; subst e1.
  - eexists. split; [reflexivity|].
    apply Forall_app. split; [exact Ht|].
    destruct (0 <? SectionInfo.size block) eqn:Hz; constructor;
      [|constructor].
    cbn. exists block. rewrite E.
    apply Z.ltb_lt in Hz. repeat split; auto.
  - eexists. split; [reflexivity|exact Ht].
Qed.

Lemma addBlockInImage_null P r w :
  addBlockInImage P r nullptr w = addSectionBlock P r None w.
Proof. reflexivity. Qed.

Lemma addBlockInImage_events P r addr w :
  Forall (notification_event P w r addr) (events (addBlockInImage P r addr w)).
Proof.
  unfold addBlockInImage.
  destruct (is_null addr) eqn:Hn; cbn [negb].
  - destruct (addSectionBlock_events P r None w) as [rest [He Ht]].
    rewrite He. constructor.
    + cbn. unfold image_of_address. rewrite Hn. now split.
    + eapply Forall_impl; [|exact Ht].
      intros e H. unfold notification_event, image_of_address.
      rewrite Hn. destruct e; cbn in *; tauto.
  - erewrite bind_returned by apply dladdr_run.
    cbn [events snd app].
    assert (Ha : addr <> nullptr) by (apply Z.eqb_neq; exact Hn).
    constructor; [cbn; now split|].
    assert (Hi : image_of_address P addr
                 = match dladdr_result P addr with
                   | Some info => dli_fname info
                   | None => None
                   end)
      by (unfold image_of_address; now rewrite Hn).
    destruct (dladdr_result P addr) as [info|]; [|constructor].
    destruct (dli_fname info) as [f|] eqn:Hf; [|constructor].
    destruct (addSectionBlock_events P r (Some f) w) as [rest [He Ht]].
    rewrite He. constructor.
    + cbn. now split.
    + eapply Forall_impl; [|exact Ht].
      intros e H. unfold notification_event. rewrite Hi.
      destruct e; cbn in *; tauto.
Qed.

Lemma notification_event_only_for P w r addr e :
  notification_event P w r addr e ->
  only_for (symbolName (deref r w)) (addBlock (deref r w)) e.
Proof.
  destruct e; cbn; auto. intros [block [H _]]. exact H.
Qed.

Lemma only_for_other w r e :
  constants_intact w ->
  only_for (symbolName (deref (other r) w)) (addBlock (deref (other r) w)) e ->
  ~ event_for (symbolName (deref r w)) (addBlock (deref r w)) e.
Proof.
  intros [A [B [C D]]] H1 H2.
  destruct e; cbn in *; try contradiction; subst;
    destruct r; cbn in *; rewrite ?A, ?B, ?C, ?D in *; discriminate.
Qed.

(** C4: when the flag of a registry is false, [swift_addNewDSOImage] does
    exactly what the notification of the other registry alone does (and
    nothing at all if that one is not initialised either); none of its
    events then looks up the symbol or calls the callback of the skipped
    registry. *)
Theorem swift_addNewDSOImage_skips_uninitialized :
  forall (P : Platform) (addr : pointer) (w : World) (r : InspectArgsPtr),
    flag r w = false ->
    swift_addNewDSOImage P addr w
    = (if flag (other r) w
       then addBlockInImage P (other r) addr w
       else (Returned tt, w, []))
    /\
    (constants_intact w ->
     Forall (fun e => ~ event_for (symbolName (deref r w))
                                  (addBlock (deref r w)) e)
            (events (swift_addNewDSOImage P addr w))).
Proof.
  intros P addr w r Hr.
  assert (E : swift_addNewDSOImage P addr w
              = if flag (other r) w
                then addBlockInImage P (other r) addr w
                else (Returned tt, w, [])).
  { destruct r; cbn [other].
    - now apply swift_addNewDSOImage_first_skipped.
    - now apply swift_addNewDSOImage_second_skipped. }
  split; [exact E|].
  intros Hc. rewrite E.
  destruct (flag (other r) w); [|constructor].
  eapply Forall_impl; [|apply addBlockInImage_events].
  intros e He. apply only_for_other; [exact Hc|].
  eapply notification_event_only_for, He.
Qed.

Lemma swift_addNewDSOImage_skips_uninitialized_witness :
  flag TypeMetadataRecordArgsPtr Demo.ready_world = false /\
  constants_intact Demo.ready_world /\
  swift_addNewDSOImage Demo.linux 0x6010 Demo.ready_world
  = addBlockInImage Demo.linux ProtocolConformanceArgsPtr 0x6010
      Demo.ready_world /\
  Forall (fun e => ~ event_for TypeMetadataRecordsSymbol
                       addImageTypeMetadataRecordBlockCallback e)
         (events (swift_addNewDSOImage Demo.linux 0x6010 Demo.ready_world)).
Proof.
  assert (Hf : flag TypeMetadataRecordArgsPtr Demo.ready_world = false)
    by reflexivity.
  assert (Hc : constants_intact Demo.ready_world)
    by (repeat split; reflexivity).
  split; [exact Hf|]. split; [exact Hc|].
  destruct (swift_addNewDSOImage_skips_uninitialized Demo.linux 0x6010
              Demo.ready_world TypeMetadataRecordArgsPtr Hf) as [E F].
  split; [exact E|exact (F Hc)].
Defined.

Lemma image_of_null P : image_of_address P nullptr = None.
Proof. reflexivity. Qed.

Lemma addBlockInImage_null_events P r :
  emits_only main_executable_only (addBlockInImage P r nullptr).
Proof.
  intros w. eapply Forall_impl; [|apply addBlockInImage_events].
  intros e H. destruct e; cbn in *; auto.
  - destruct H as [H _]. exact H.
  - destruct H as [_ H]. now apply H.
Qed.

Lemma addBlockInImage_null_first_event P r w :
  exists rest,
    events (addBlockInImage P r nullptr w)
    = EvDlopen None lookup_flags :: rest.
Proof.
  rewrite addBlockInImage_null.
  destruct (addSectionBlock_events P r None w) as [rest [He _]].
  now exists rest.
Qed.

Lemma addBlock_calls_app e1 e2 :
  addBlock_calls (e1 ++ e2) = addBlock_calls e1 ++ addBlock_calls e2.
Proof. apply filter_app. Qed.

(** The call made for a section that is there and not empty. *)
Lemma addSectionBlock_reports P r fname w :
  let symbol := dlsym_result P (dlopen_result P fname lookup_flags)
                  (symbolName (deref r w)) in
  dlopen_result P fname lookup_flags <> nullptr ->
  symbol <> nullptr ->
  0 < stored_uint64 P symbol ->
  addBlock_calls (events (addSectionBlock P r fname w))
  = [EvAddBlock (addBlock (deref r w)) (symbol + 8)
       (to_uintptr_t P (stored_uint64 P symbol))].
Proof.
  intros symbol Hh Hs Hz.
  rewrite addSectionBlock_run, (getSectionInfo_opened _ _ _ _ Hh).
  cbv zeta. fold symbol.
  assert (Hn : is_null symbol = false) by (apply Z.eqb_neq; exact Hs).
  rewrite Hn. cbn [SectionInfo.size SectionInfo.data].
  apply Z.ltb_lt in Hz. rewrite Hz. reflexivity.
Qed.

(** No call is made for a section that is missing or empty. *)
Lemma addSectionBlock_silent P r fname w :
  missing_or_empty P fname (symbolName (deref r w)) ->
  addBlock_calls (events (addSectionBlock P r fname w)) = [].
Proof.
  unfold missing_or_empty. cbv zeta. intros H.
  rewrite addSectionBlock_run.
  destruct (Z.eq_dec (dlopen_result P fname lookup_flags) nullptr) as [E|E].
  - rewrite (getSectionInfo_not_opened _ _ _ _ E).
    destruct (is_android P); reflexivity.
  - rewrite (getSectionInfo_opened _ _ _ _ E). cbv zeta.
    destruct (is_null (dlsym_result P _ _)) eqn:Hn; [reflexivity|].
    destruct H as [H|H].
    + apply Z.eqb_neq in Hn. contradiction.
    + cbn [SectionInfo.size]. rewrite H. reflexivity.
Qed.

(** C5, as stated, fails: once the conformance registry is initialised, a
    notification with a null address opens the main executable, looks the
    section up and calls the callback with it a second time. *)
Lemma null_address_notification_reports_main_executable :
  events (initializeProtocolConformanceLookup Demo.linux initial_world)
  = [EvDlopen None 5; EvDlsym 0x1000 ProtocolConformancesSymbol;
     EvDlclose 0x1000;
     EvAddBlock addImageProtocolConformanceBlockCallback 0x5008 8;
     EvDlopen (Some "libFoo.so") 5;
     EvDlsym 0x1100 ProtocolConformancesSymbol; EvDlclose 0x1100;
     EvAddBlock addImageProtocolConformanceBlockCallback 0x6008 16;
     EvDlopen (Some "libEmpty.so") 5;
     EvDlsym 0x1200 ProtocolConformancesSymbol; EvDlclose 0x1200] /\
  events (swift_addNewDSOImage Demo.linux nullptr Demo.ready_world)
  = [EvDlopen None 5; EvDlsym 0x1000 ProtocolConformancesSymbol;
     EvDlclose 0x1000;
     EvAddBlock addImageProtocolConformanceBlockCallback 0x5008 8] /\
  ~ null_notification_is_noop.
Proof.
  split; [reflexivity|]. split; [reflexivity|].
  intros H. specialize (H Demo.linux Demo.ready_world).
  vm_compute in H. discriminate H.
Qed.

(* ===================================================================== *)
(** ** Only non-empty sections are reported *)
(* ===================================================================== *)

Lemma deref_store_constants r q b w :
  symbolName (deref r (store_flag q b w)) = symbolName (deref r w) /\
  addBlock (deref r (store_flag q b w)) = addBlock (deref r w).
Proof. destruct r, q; split; reflexivity. Qed.

Lemma same_constants_refl w : same_constants w w.
Proof. intros r. split; reflexivity. Qed.

Lemma same_constants_args w0 w w' :
  same_constants w0 w -> same_args w w' -> same_constants w0 w'.
Proof.
  intros H Ha r. rewrite (same_args_deref _ _ r Ha). apply H.
Qed.

Lemma same_constants_store w0 w q b :
  same_constants w0 w -> same_constants w0 (store_flag q b w).
Proof.
  intros H r. destruct (deref_store_constants r q b w) as [A B].
  rewrite A, B. apply H.
Qed.

Lemma lookup_tail_reports P w0 w r fname e :
  same_constants w0 w ->
  lookup_tail_event P w r fname e ->
  reports_nonempty_section P w0 e.
Proof.
  intros Hc. destruct e; cbn; auto.
  intros [block [Hf [Ho [Hz [Hs Hn]]]]].
  destruct (Hc r) as [A B].
  exists r, fname, w, block. rewrite <- A, <- B. repeat split; auto.
Qed.

Lemma iteratePHDRCallback_events P info size r w :
  Forall (enumeration_event P w r info)
         (events (iteratePHDRCallback P info size r w)).
Proof.
  unfold iteratePHDRCallback.
  erewrite bind_returned by reflexivity. cbn [app events snd].
  destruct (dlpi_name info) as [[|c s]|] eqn:Hn; try constructor.
  destruct (addSectionBlock_events P r (Some (String c s))
              (store_flag r true w)) as [rest [He Ht]].
  destruct (addSectionBlock P r (Some (String c s)) (store_flag r true w))
    as [[[u|d] w1] e1] eqn:E; cbn [events snd] in He; subst e1.
  - erewrite bind_returned by exact E. cbn [ret events snd].
    rewrite app_nil_r. constructor.
    + cbn. rewrite Hn. split; [reflexivity|]. split; [reflexivity|].
      now exists c, s.
    + eapply Forall_impl; [|exact Ht]. intros e H.
      unfold enumeration_event. rewrite Hn.
      destruct e; cbn in *; tauto.
  - erewrite bind_terminated by exact E. cbn [events snd]. constructor.
    + cbn. rewrite Hn. split; [reflexivity|]. split; [reflexivity|].
      now exists c, s.
    + eapply Forall_impl; [|exact Ht]. intros e H.
      unfold enumeration_event. rewrite Hn.
      destruct e; cbn in *; tauto.
Qed.

Lemma notification_event_reports P w0 w r addr e :
  same_constants w0 w ->
  notification_event P w r addr e -> reports_nonempty_section P w0 e.
Proof.
  intros Hc H. destruct e; try exact I.
  eapply lookup_tail_reports; [exact Hc|exact H].
Qed.

Lemma enumeration_event_reports P w0 w r info e :
  same_constants w0 w ->
  enumeration_event P w r info e -> reports_nonempty_section P w0 e.
Proof.
  intros Hc H. destruct e; try exact I.
  eapply lookup_tail_reports; [|exact H].
  now apply same_constants_store.
Qed.

Lemma addBlockInImage_reports P w0 r addr :
  emits_under (same_constants w0) (reports_nonempty_section P w0)
              (addBlockInImage P r addr).
Proof.
  intros w Hw. split.
  - eapply same_constants_args; [exact Hw|].
    apply addBlockInImage_keeps_args.
  - eapply Forall_impl; [|apply addBlockInImage_events].
    intros e. now apply notification_event_reports.
Qed.

Lemma iteratePHDRCallback_reports P w0 info size r :
  emits_under (same_constants w0) (reports_nonempty_section P w0)
              (iteratePHDRCallback P info size r).
Proof.
  intros w Hw. split.
  - eapply same_constants_args; [|apply iteratePHDRCallback_args].
    now apply same_constants_store.
  - eapply Forall_impl; [|apply iteratePHDRCallback_events].
    intros e. now apply enumeration_event_reports.
Qed.

Lemma get_emits_under I Q : emits_under I Q get.
Proof. intros w Hw. split; [exact Hw|constructor]. Qed.

Lemma iteratePHDRCallback_silent P info size r w :
  missing_or_empty P (dlpi_name info) (symbolName (deref r w)) ->
  addBlock_calls (events (iteratePHDRCallback P info size r w)) = [].
Proof.
  intros H. unfold iteratePHDRCallback.
  erewrite bind_returned by reflexivity. cbn [app events snd].
  destruct (dlpi_name info) as [[|c s]|] eqn:Hn; try reflexivity.
  assert (Hs : addBlock_calls
                 (events (addSectionBlock P r (Some (String c s))
                            (store_flag r true w))) = []).
  { apply addSectionBlock_silent.
    destruct (deref_store_constants r r true w) as [A _]. now rewrite A. }
  destruct (addSectionBlock P r (Some (String c s)) (store_flag r true w))
    as [[[u|d] w1] e1] eqn:E; cbn [events snd] in Hs.
  - erewrite bind_returned by exact E. cbn [ret events snd].
    now rewrite app_nil_r.
  - erewrite bind_terminated by exact E. exact Hs.
Qed.

Lemma addBlockInImage_silent P r addr w :
  missing_or_empty P (image_of_address P addr) (symbolName (deref r w)) ->
  addBlock_calls (events (addBlockInImage P r addr w)) = [].
Proof.
  unfold addBlockInImage, image_of_address.
  destruct (is_null addr); cbn [negb]; intros H.
  - now apply addSectionBlock_silent.
  - erewrite bind_returned by apply dladdr_run. cbn [events snd app].
    destruct (dladdr_result P addr) as [info|]; [|reflexivity].
    destruct (dli_fname info) as [f|] eqn:Hf; [|reflexivity].
    cbn [addBlock_calls filter is_addBlock].
    now apply addSectionBlock_silent.
Qed.

(** C7: on the enumeration path ([iteratePHDRCallback], hence
    [initializeSectionLookup]) and on the notification path
    ([addBlockInImage], hence [swift_addNewDSOImage]) every call of the
    accumulation callback passes a section that [getSectionInfo] returned
    with a length above zero, and an image whose section symbol is missing
    or whose length prefix is zero produces no call. *)
Theorem addBlock_only_for_nonempty_section :
  forall (P : Platform) (w : World),
    (forall info size r,
       Forall (reports_nonempty_section P w)
              (events (iteratePHDRCallback P info size r w)) /\
       (missing_or_empty P (dlpi_name info) (symbolName (deref r w)) ->
        addBlock_calls (events (iteratePHDRCallback P info size r w)) = []))
    /\
    (forall r addr,
       Forall (reports_nonempty_section P w)
              (events (addBlockInImage P r addr w)) /\
       (missing_or_empty P (image_of_address P addr)
                         (symbolName (deref r w)) ->
        addBlock_calls (events (addBlockInImage P r addr w)) = []))
    /\
    (forall r,
       Forall (reports_nonempty_section P w)
              (events (initializeSectionLookup P r w)))
    /\
    (forall addr,
       Forall (reports_nonempty_section P w)
              (events (swift_addNewDSOImage P addr w))).
Proof.
  intros P w. split; [|split; [|split]].
  - intros info size r. split.
    + exact (proj2 (iteratePHDRCallback_reports P w info size r w
                      (same_constants_refl w))).
    + apply iteratePHDRCallback_silent.
  - intros r addr. split.
    + exact (proj2 (addBlockInImage_reports P w r addr w
                      (same_constants_refl w))).
    + apply addBlockInImage_silent.
  - intros r.
    assert (H : emits_under (same_constants w)
                  (reports_nonempty_section P w)
                  (initializeSectionLookup P r)).
    { unfold initializeSectionLookup, dl_iterate_phdr.
      apply emits_under_bind; [apply addBlockInImage_reports|]. intros _.
      apply emits_under_bind; [|intros; apply emits_under_ret].
      apply emits_under_dl_iterate_phdr_over.
      intros. apply iteratePHDRCallback_reports. }
    exact (proj2 (H w (same_constants_refl w))).
  - intros addr.
    assert (H : emits_under (same_constants w)
                  (reports_nonempty_section P w)
                  (swift_addNewDSOImage P addr)).
    { unfold swift_addNewDSOImage.
      apply emits_under_bind; [apply get_emits_under|]. intros w1.
      apply emits_under_bind.
      - destruct (didInitializeLookup _);
          [apply addBlockInImage_reports|apply emits_under_ret].
      - intros _. apply emits_under_bind; [apply get_emits_under|].
        intros w2.
        destruct (didInitializeLookup _);
          [apply addBlockInImage_reports|apply emits_under_ret]. }
    exact (proj2 (H w (same_constants_refl w))).
Qed.

Lemma addBlock_only_for_nonempty_section_witness :
  missing_or_empty Demo.linux (Some "libEmpty.so") ProtocolConformancesSymbol
  /\
  addBlock_calls
    (events (iteratePHDRCallback Demo.linux
               (mk_dl_phdr_info 0x7000 (Some "libEmpty.so")) 64
               ProtocolConformanceArgsPtr initial_world))
  = [] /\
  missing_or_empty Demo.linux (image_of_address Demo.linux 0x6010)
    TypeMetadataRecordsSymbol /\
  addBlock_calls
    (events (addBlockInImage Demo.linux TypeMetadataRecordArgsPtr 0x6010
               initial_world))
  = [].
Proof.
  assert (H1 : missing_or_empty Demo.linux (Some "libEmpty.so")
                 ProtocolConformancesSymbol) by (right; reflexivity).
  assert (H2 : missing_or_empty Demo.linux
                 (image_of_address Demo.linux 0x6010)
                 TypeMetadataRecordsSymbol) by (left; reflexivity).
  split; [exact H1|]. split; [|split; [exact H2|]].
  - exact (proj2 (proj1 (addBlock_only_for_nonempty_section Demo.linux
                           initial_world)
                    (mk_dl_phdr_info 0x7000 (Some "libEmpty.so")) 64
                    ProtocolConformanceArgsPtr) H1).
  - exact (proj2 (proj1 (proj2 (addBlock_only_for_nonempty_section
                                  Demo.linux initial_world))
                    TypeMetadataRecordArgsPtr 0x6010) H2).
Defined.

(* ===================================================================== *)
(** ** How often an image is opened during initialisation *)
(* ===================================================================== *)

Lemma cstring_eqb_eq a b : cstring_eqb a b = true <-> a = b.
Proof.
  destruct a as [x|], b as [y|]; cbn; split; intros H;
    try discriminate; try reflexivity.
  - apply String.eqb_eq in H. now subst.
  - inversion H. apply String.eqb_refl.
Qed.

Lemma count_dlopen_app n e1 e2 :
  count_dlopen n (e1 ++ e2) = (count_dlopen n e1 + count_dlopen n e2)%nat.
Proof. unfold count_dlopen. now rewrite filter_app, length_app. Qed.

Lemma count_dlopen_tail P w r fname n rest :
  Forall (lookup_tail_event P w r fname) rest -> count_dlopen n rest = 0%nat.
Proof.
  induction 1 as [|e rest He _ IH]; [reflexivity|].
  unfold count_dlopen in *. destruct e; cbn in *; try exact IH.
  contradiction.
Qed.

Lemma addSectionBlock_count P r fname w n :
  count_dlopen n (events (addSectionBlock P r fname w))
  = if cstring_eqb fname n then 1%nat else 0%nat.
Proof.
  destruct (addSectionBlock_events P r fname w) as [rest [He Ht]].
  rewrite He. pose proof (count_dlopen_tail _ _ _ _ n _ Ht) as Hc.
  unfold count_dlopen in *. cbn [filter is_dlopen_of].
  destruct (cstring_eqb fname n); cbn [List.length]; now rewrite Hc.
Qed.

Lemma iteratePHDRCallback_count P info size r w n :
  count_dlopen n (events (iteratePHDRCallback P info size r w))
  = if named_entry n info then 1%nat else 0%nat.
Proof.
  unfold iteratePHDRCallback, named_entry.
  erewrite bind_returned by reflexivity. cbn [app events snd].
  destruct (dlpi_name info) as [[|c s]|] eqn:Hn; try reflexivity.
  pose proof (addSectionBlock_count P r (Some (String c s))
                (store_flag r true w) n) as Hc.
  destruct (addSectionBlock P r (Some (String c s)) (store_flag r true w))
    as [[[u|d] w1] e1] eqn:E; cbn [events snd] in Hc.
  - erewrite bind_returned by exact E. cbn [ret events snd].
    now rewrite app_nil_r.
  - erewrite bind_terminated by exact E. exact Hc.
Qed.

(** The enumeration opens an image at most as often as entries carry its
    non-empty name. *)
Lemma dl_iterate_phdr_over_count P images r n :
  forall w,
    (count_dlopen n
       (events (dl_iterate_phdr_over P images (iteratePHDRCallback P) r w))
     <= List.length (filter (named_entry n) images))%nat.
Proof.
  induction images as [|info rest IH]; intros w.
  - cbn. lia.
  - cbn [dl_iterate_phdr_over filter].
    pose proof (iteratePHDRCallback_count P info (sizeof_dl_phdr_info P)
                  r w n) as Hc.
    destruct (iteratePHDRCallback P info (sizeof_dl_phdr_info P) r w)
      as [[[z|d] w1] e1] eqn:E; cbn [events snd] in Hc.
    + erewrite bind_returned by exact E. cbn [events snd].
      rewrite count_dlopen_app, Hc.
      assert (Hrest : (count_dlopen n
                         (events ((if (z =? 0)%Z
                                   then dl_iterate_phdr_over P rest
                                          (iteratePHDRCallback P) r
                                   else ret z) w1))
                       <= List.length (filter (named_entry n) rest))%nat).
      { destruct (z =? 0); [apply IH|cbn; lia]. }
      destruct (named_entry n info); cbn [List.length]; lia.
    + erewrite bind_terminated by exact E. cbn [events snd]. rewrite Hc.
      destruct (named_entry n info); cbn [List.length]; lia.
Qed.

Lemma named_entries_le n images :
  (List.length (filter (named_entry n) images)
   <= count_entries n images)%nat.
Proof.
  unfold count_entries, named_entry.
  induction images as [|info rest IH]; [cbn; lia|].
  cbn [filter].
  destruct (dlpi_name info) as [[|c s]|];
    destruct (cstring_eqb _ n); cbn [List.length]; lia.
Qed.

Lemma named_entries_unnamed n images :
  n = None \/ n = Some EmptyString ->
  List.length (filter (named_entry n) images) = 0%nat.
Proof.
  intros Hn. induction images as [|info rest IH]; [reflexivity|].
  cbn [filter]. unfold named_entry at 1.
  destruct (dlpi_name info) as [[|c s]|]; try exact IH.
  destruct Hn; subst n; exact IH.
Qed.

Lemma count_entries_nodup n images :
  NoDup (map dlpi_name images) -> (count_entries n images <= 1)%nat.
Proof.
  unfold count_entries.
  induction images as [|info rest IH]; intros Hnd; [cbn; lia|].
  cbn [map] in Hnd. inversion Hnd as [|x l Hnotin Hnd']; subst.
  cbn [filter]. specialize (IH Hnd').
  destruct (cstring_eqb (dlpi_name info) n) eqn:He; [|exact IH].
  apply cstring_eqb_eq in He. cbn [List.length].
  assert (Hz : filter (fun i => cstring_eqb (dlpi_name i) n) rest = []).
  { destruct (filter (fun i => cstring_eqb (dlpi_name i) n) rest)
      as [|j js] eqn:Hf; [reflexivity|].
    assert (Hj : In j (filter (fun i => cstring_eqb (dlpi_name i) n) rest))
      by (rewrite Hf; now left).
    apply filter_In in Hj. destruct Hj as [Hin Hj].
    apply cstring_eqb_eq in Hj. exfalso. apply Hnotin.
    rewrite He, <- Hj. now apply in_map. }
  rewrite Hz. cbn. lia.
Qed.

Lemma initializeSectionLookup_events P r w :
  exists e1 e2,
    events (initializeSectionLookup P r w) = e1 ++ e2 /\
    e1 = events (addBlockInImage P r nullptr w) /\
    forall n,
      (count_dlopen n e2
       <= List.length (filter (named_entry n) (loaded_images P)))%nat.
Proof.
  unfold initializeSectionLookup, dl_iterate_phdr.
  destruct (addBlockInImage P r nullptr w) as [[[u|d] w1] e1] eqn:E.
  - erewrite bind_returned by exact E. cbn [events snd].
    eexists e1, _. split; [reflexivity|]. split; [reflexivity|].
    intros n.
    pose proof (dl_iterate_phdr_over_count P (loaded_images P) r n w1) as Hc.
    destruct (dl_iterate_phdr_over P (loaded_images P)
                (iteratePHDRCallback P) r w1) as [[[z|d] w2] e2] eqn:E2.
    + erewrite bind_returned by exact E2. cbn [ret events snd] in *.
      now rewrite app_nil_r.
    + erewrite bind_terminated by exact E2. exact Hc.
  - erewrite bind_terminated by exact E. cbn [events snd].
    exists e1, []. split; [now rewrite app_nil_r|]. split; [reflexivity|].
    intros n. cbn. lia.
Qed.

(** C6: whatever the state and the set of loaded images,
    [initializeSectionLookup] opens the main executable exactly once, as
    its first action and through the null image name; it opens any other
    image at most as often as the enumeration lists its name, hence at most
    once when the enumeration lists no name twice; and entries whose name
    is null or empty are never opened. *)
Theorem initializeSectionLookup_opens_each_image_once :
  forall (P : Platform) (r : InspectArgsPtr) (w : World),
    let evs := events (initializeSectionLookup P r w) in
    count_dlopen None evs = 1%nat /\
    (exists rest, evs = EvDlopen None lookup_flags :: rest) /\
    (forall name,
       (count_dlopen (Some name) evs
        <= count_entries (Some name) (loaded_images P))%nat) /\
    count_dlopen (Some EmptyString) evs = 0%nat /\
    (NoDup (map dlpi_name (loaded_images P)) ->
     forall name, (count_dlopen (Some name) evs <= 1)%nat).
Proof.
  intros P r w evs. subst evs.
  destruct (initializeSectionLookup_events P r w) as [e1 [e2 [He [H1 H2]]]].
  rewrite He.
  assert (Hmain : forall n,
             count_dlopen n e1 = if cstring_eqb None n then 1%nat else 0%nat).
  { intros n. subst e1. rewrite addBlockInImage_null.
    apply addSectionBlock_count. }
  assert (Hle : forall name,
             (count_dlopen (Some name) (e1 ++ e2)
              <= count_entries (Some name) (loaded_images P))%nat).
  { intros name. rewrite count_dlopen_app, Hmain. cbn [cstring_eqb].
    pose proof (H2 (Some name)).
    pose proof (named_entries_le (Some name) (loaded_images P)). lia. }
  split; [|split; [|split; [|split]]].
  - rewrite count_dlopen_app, Hmain. cbn [cstring_eqb].
    pose proof (H2 None) as Hn.
    rewrite (named_entries_unnamed None) in Hn by now left. lia.
  - destruct (addBlockInImage_null_first_event P r w) as [rest Hr].
    subst e1. rewrite Hr. eexists. reflexivity.
  - exact Hle.
  - rewrite count_dlopen_app, Hmain. cbn [cstring_eqb].
    pose proof (H2 (Some EmptyString)) as Hn.
    rewrite (named_entries_unnamed (Some EmptyString)) in Hn by now right.
    lia.
  - intros Hnd name.
    pose proof (Hle name).
    pose proof (count_entries_nodup (Some name) (loaded_images P) Hnd). lia.
Qed.

Lemma initializeSectionLookup_opens_each_image_once_witness :
  NoDup (map dlpi_name (loaded_images Demo.linux)) /\
  forall name,
    (count_dlopen (Some name)
       (events (initializeSectionLookup Demo.linux ProtocolConformanceArgsPtr
                  initial_world)) <= 1)%nat.
Proof.
  assert (H : NoDup (map dlpi_name (loaded_images Demo.linux))).
  { cbn. repeat constructor; cbn; intuition discriminate. }
  split; [exact H|].
  exact (proj2 (proj2 (proj2 (proj2
           (initializeSectionLookup_opens_each_image_once Demo.linux
              ProtocolConformanceArgsPtr initial_world)))) H).
Defined.

(* ===================================================================== *)
(** ** Loader handles are never leaked *)
(* ===================================================================== *)

Lemma same_handles_refl w : same_handles w w.
Proof. reflexivity. Qed.

Lemma same_handles_trans w1 w2 w3 :
  same_handles w1 w2 -> same_handles w2 w3 -> same_handles w1 w3.
Proof. unfold same_handles. congruence. Qed.

Lemma getSectionInfo_same_handles P imageName sectionName :
  preserves same_handles (getSectionInfo P imageName sectionName).
Proof.
  intros w. unfold same_handles.
  destruct (Z.eq_dec (dlopen_result P imageName lookup_flags) nullptr) as [E|E].
  - rewrite (getSectionInfo_not_opened _ _ _ _ E).
    destruct (is_android P); destruct w; reflexivity.
  - rewrite (getSectionInfo_opened _ _ _ _ E). cbv zeta.
    destruct (is_null _); destruct w; reflexivity.
Qed.

Lemma addSectionBlock_same_handles P r fname :
  preserves same_handles (addSectionBlock P r fname).
Proof.
  intros w. rewrite addSectionBlock_run.
  pose proof (getSectionInfo_same_handles P fname (symbolName (deref r w)) w)
    as H.
  destruct (getSectionInfo P fname (symbolName (deref r w)) w)
    as [[[block|d] w1] e1]; exact H.
Qed.

Lemma addBlockInImage_same_handles P r addr :
  preserves same_handles (addBlockInImage P r addr).
Proof.
  unfold addBlockInImage.
  destruct (negb (is_null addr)).
  - apply preserves_bind; [apply same_handles_trans| |].
    + intros w. reflexivity.
    + intros [info|]; [|apply preserves_ret, same_handles_refl].
      destruct (dli_fname info);
        [apply addSectionBlock_same_handles
        |apply preserves_ret, same_handles_refl].
  - apply addSectionBlock_same_handles.
Qed.

Lemma iteratePHDRCallback_same_handles P info size r :
  preserves same_handles (iteratePHDRCallback P info size r).
Proof.
  unfold iteratePHDRCallback.
  apply preserves_bind; [apply same_handles_trans| |].
  - intros w. destruct r; reflexivity.
  - intros _. destruct (dlpi_name info) as [[|c s]|];
      try apply preserves_ret, same_handles_refl.
    apply preserves_bind; [apply same_handles_trans| |].
    + apply addSectionBlock_same_handles.
    + intros _. apply preserves_ret, same_handles_refl.
Qed.

Lemma initializeSectionLookup_same_handles P r :
  preserves same_handles (initializeSectionLookup P r).
Proof.
  unfold initializeSectionLookup, dl_iterate_phdr.
  apply preserves_bind; [apply same_handles_trans| |].
  - apply addBlockInImage_same_handles.
  - intros _. apply preserves_bind; [apply same_handles_trans| |].
    + apply preserves_dl_iterate_phdr_over;
        [apply same_handles_refl|apply same_handles_trans|].
      intros. apply iteratePHDRCallback_same_handles.
    + intros _. apply preserves_ret, same_handles_refl.
Qed.

Lemma swift_addNewDSOImage_same_handles P addr :
  preserves same_handles (swift_addNewDSOImage P addr).
Proof.
  unfold swift_addNewDSOImage.
  apply preserves_bind; [apply same_handles_trans| |].
  - intros w. reflexivity.
  - intros w1. apply preserves_bind; [apply same_handles_trans| |].
    + destruct (didInitializeLookup _);
        [apply addBlockInImage_same_handles
        |apply preserves_ret, same_handles_refl].
    + intros _. apply preserves_bind; [apply same_handles_trans| |].
      * intros w. reflexivity.
      * intros w2. destruct (didInitializeLookup _);
          [apply addBlockInImage_same_handles
          |apply preserves_ret, same_handles_refl].
Qed.

Lemma run_call_same_handles P c : preserves same_handles (run_call P c).
Proof.
  destruct c; cbn [run_call].
  - apply initializeSectionLookup_same_handles.
  - apply initializeSectionLookup_same_handles.
  - apply swift_addNewDSOImage_same_handles.
  - intros w. unfold same_handles.
    erewrite bind_returned by apply lookupSymbol_run. reflexivity.
Qed.

(** X1: through any history of calls to the entry points, whatever the
    loader answers and whether or not the process is ended on the way,
    the handles the process holds at the end are those it held at the
    start: every handle [dlopen] gave has been passed to [dlclose]. *)
Theorem entry_points_leak_no_handle :
  forall (cs : list (Platform * ApiCall)) (w : World),
    open_handles (world_after (run_calls cs w)) = open_handles w.
Proof.
  induction cs as [|[P c] rest IH]; intros w; [reflexivity|].
  cbn [run_calls].
  assert (H : preserves same_handles (run_call P c ;;; run_calls rest)).
  { apply preserves_bind; [apply same_handles_trans| |].
    - apply run_call_same_handles.
    - intros _ w1. apply IH. }
  exact (H w).
Qed.

(* ===================================================================== *)
(** ** When the process is ended *)
(* ===================================================================== *)

Lemma bind_outcome_terminated {A B} (m : M A) (k : A -> M B) w d :
  outcome (bind m k w) = Terminated d ->
  outcome (m w) = Terminated d \/
  exists a, outcome (m w) = Returned a /\
            outcome (k a (world_after (m w))) = Terminated d.
Proof.
  destruct (m w) as [[[a|d'] w1] e1] eqn:E.
  - erewrite bind_returned by exact E.
    unfold outcome, world_after. cbn [fst snd]. intros H. right.
    exists a. split; [reflexivity|exact H].
  - erewrite bind_terminated by exact E.
    unfold outcome. cbn [fst]. intros H. left. inversion H. reflexivity.
Qed.

Lemma dies_only_at_weaken {A} P (Q R : cstring -> Prop) (m : M A) :
  (forall n, Q n -> R n) -> dies_only_at P Q m -> dies_only_at P R m.
Proof.
  intros HQR Hm w d Hd. destruct (Hm w d Hd) as [Ha [n [Hn H]]].
  split; [exact Ha|]. exists n. split; [now apply HQR|exact H].
Qed.

Lemma dies_only_at_ret {A} P Q (a : A) : dies_only_at P Q (ret a).
Proof. intros w d H. discriminate H. Qed.

Lemma dies_only_at_bind {A B} P Q (m : M A) (k : A -> M B) :
  dies_only_at P Q m -> (forall a, dies_only_at P Q (k a)) ->
  dies_only_at P Q (bind m k).
Proof.
  intros Hm Hk w d Hd.
  destruct (bind_outcome_terminated m k w d Hd) as [H|[a [_ H]]].
  - exact (Hm w d H).
  - exact (Hk a _ d H).
Qed.

Lemma dies_only_at_dl_iterate_phdr_over {D} P Q images
      (callback : dl_phdr_info -> Z -> D -> M Z) (data : D) :
  (forall info size d, In info images ->
                       dies_only_at P Q (callback info size d)) ->
  dies_only_at P Q (dl_iterate_phdr_over P images callback data).
Proof.
  induction images as [|info rest IH]; intros Hcb;
    cbn [dl_iterate_phdr_over].
  - apply dies_only_at_ret.
  - apply dies_only_at_bind; [apply Hcb; now left|].
    intros z. destruct (z =? 0); [|apply dies_only_at_ret].
    apply IH. intros i s d Hi. apply Hcb. now right.
Qed.

Lemma getSectionInfo_dies_only_at P imageName sectionName :
  dies_only_at P (fun n => n = imageName)
               (getSectionInfo P imageName sectionName).
Proof.
  intros w d.
  destruct (Z.eq_dec (dlopen_result P imageName lookup_flags) nullptr) as [E|E].
  - rewrite (getSectionInfo_not_opened _ _ _ _ E).
    destruct (is_android P); cbn; intros H; [discriminate|].
    inversion H. split; [reflexivity|]. now exists imageName.
  - rewrite (getSectionInfo_opened _ _ _ _ E). cbn. discriminate.
Qed.

Lemma addSectionBlock_dies_only_at P r fname :
  dies_only_at P (fun n => n = fname) (addSectionBlock P r fname).
Proof.
  intros w d. rewrite addSectionBlock_run.
  pose proof (getSectionInfo_dies_only_at P fname (symbolName (deref r w))
                w d) as H.
  destruct (getSectionInfo P fname (symbolName (deref r w)) w)
    as [[[block|d'] w1] e1]; unfold outcome in *; cbn [fst] in *;
    intros Hd; [discriminate Hd|].
  apply H. inversion Hd. reflexivity.
Qed.

Lemma addBlockInImage_dies_only_at P r addr :
  dies_only_at P (fun n => n = image_of_address P addr)
               (addBlockInImage P r addr).
Proof.
  unfold addBlockInImage, image_of_address.
  destruct (is_null addr); cbn [negb].
  - apply addSectionBlock_dies_only_at.
  - intros w d. erewrite bind_returned by apply dladdr_run.
    cbn [outcome fst].
    destruct (dladdr_result P addr) as [info|]; [|discriminate].
    destruct (dli_fname info) as [f|] eqn:Hf; [|discriminate].
    apply addSectionBlock_dies_only_at.
Qed.

Lemma iteratePHDRCallback_dies_only_at P info size r :
  dies_only_at P (fun n => n = dlpi_name info)
               (iteratePHDRCallback P info size r).
Proof.
  unfold iteratePHDRCallback.
  apply dies_only_at_bind; [intros w d H; discriminate H|]. intros _.
  destruct (dlpi_name info) as [[|c s]|]; try apply dies_only_at_ret.
  apply dies_only_at_bind; [apply addSectionBlock_dies_only_at|].
  intros _. apply dies_only_at_ret.
Qed.

Lemma get_dies_only_at P Q : dies_only_at P Q get.
Proof. intros w d H. discriminate H. Qed.

(** X2: an entry point ends the process only on a build that is not for
    Android and only at a [dlopen] that gave no handle; the diagnostic
    then names that image and carries its [dlerror] text.  For
    [initializeSectionLookup] the image is the main executable or an entry
    of the enumeration, for [swift_addNewDSOImage] it is the image the
    address stands for. *)
Theorem termination_only_at_failed_dlopen :
  forall (P : Platform) (w : World) (d : string),
    (forall r,
       outcome (initializeSectionLookup P r w) = Terminated d ->
       is_android P = false /\
       exists name,
         (name = None \/ In name (map dlpi_name (loaded_images P))) /\
         dlopen_result P name lookup_flags = nullptr /\
         d = dlopen_diagnostic name (dlopen_error_text P name))
    /\
    (forall addr,
       outcome (swift_addNewDSOImage P addr w) = Terminated d ->
       is_android P = false /\
       exists name,
         name = image_of_address P addr /\
         dlopen_result P name lookup_flags = nullptr /\
         d = dlopen_diagnostic name (dlopen_error_text P name)).
Proof.
  intros P w d. split.
  - intros r.
    assert (H : dies_only_at P
                  (fun n => n = None \/
                            In n (map dlpi_name (loaded_images P)))
                  (initializeSectionLookup P r)).
    { unfold initializeSectionLookup, dl_iterate_phdr.
      apply dies_only_at_bind.
      - apply (dies_only_at_weaken P
                 (fun n => n = image_of_address P nullptr));
          [|apply addBlockInImage_dies_only_at].
        intros n Hn. left. exact Hn.
      - intros _. apply dies_only_at_bind; [|intros; apply dies_only_at_ret].
        apply dies_only_at_dl_iterate_phdr_over.
        intros info size q Hin.
        apply (dies_only_at_weaken P (fun n => n = dlpi_name info));
          [|apply iteratePHDRCallback_dies_only_at].
        intros n Hn. right. subst n. now apply in_map. }
    exact (H w d).
  - intros addr.
    assert (H : dies_only_at P (fun n => n = image_of_address P addr)
                  (swift_addNewDSOImage P addr)).
    { unfold swift_addNewDSOImage.
      apply dies_only_at_bind; [apply get_dies_only_at|]. intros w1.
      apply dies_only_at_bind.
      - destruct (didInitializeLookup _);
          [apply addBlockInImage_dies_only_at|apply dies_only_at_ret].
      - intros _. apply dies_only_at_bind; [apply get_dies_only_at|].
        intros w2.
        destruct (didInitializeLookup _);
          [apply addBlockInImage_dies_only_at|apply dies_only_at_ret]. }
    exact (H w d).
Qed.

Lemma termination_only_at_failed_dlopen_witness :
  outcome (initializeSectionLookup Scenario.linux ProtocolConformanceArgsPtr
             initial_world)
  = Terminated "dlopen() failed on `linux-vdso.so.1': image not loaded" /\
  exists name,
    (name = None \/ In name (map dlpi_name (loaded_images Scenario.linux))) /\
    dlopen_result Scenario.linux name lookup_flags = nullptr /\
    "dlopen() failed on `linux-vdso.so.1': image not loaded"
    = dlopen_diagnostic name (dlopen_error_text Scenario.linux name).
Proof.
  assert (H : outcome (initializeSectionLookup Scenario.linux
                         ProtocolConformanceArgsPtr initial_world)
              = Terminated
                  "dlopen() failed on `linux-vdso.so.1': image not loaded")
    by reflexivity.
  split; [exact H|].
  exact (proj2 (proj1 (termination_only_at_failed_dlopen Scenario.linux
                         initial_world _) ProtocolConformanceArgsPtr H)).
Defined.

Lemma always_returns_ret {A} (a : A) : always_returns (ret a).
Proof. intros w. now exists a. Qed.

Lemma always_returns_bind {A B} (m : M A) (k : A -> M B) :
  always_returns m -> (forall a, always_returns (k a)) ->
  always_returns (bind m k).
Proof.
  intros Hm Hk w. destruct (Hm w) as [a Ha].
  destruct (m w) as [[o w1] e1] eqn:E. cbn in Ha. subst o.
  erewrite bind_returned by exact E. cbn [outcome fst]. apply Hk.
Qed.

Lemma always_returns_dl_iterate_phdr_over {D} P images
      (callback : dl_phdr_info -> Z -> D -> M Z) (data : D) :
  (forall info size d, always_returns (callback info size d)) ->
  always_returns (dl_iterate_phdr_over P images callback data).
Proof.
  intros Hcb. induction images as [|info rest IH]; cbn [dl_iterate_phdr_over].
  - apply always_returns_ret.
  - apply always_returns_bind; [apply Hcb|].
    intros z. destruct (z =? 0); [exact IH|apply always_returns_ret].
Qed.

Lemma getSectionInfo_returns_on_android P imageName sectionName :
  is_android P = true ->
  always_returns (getSectionInfo P imageName sectionName).
Proof.
  intros Ha w.
  destruct (Z.eq_dec (dlopen_result P imageName lookup_flags) nullptr) as [E|E].
  - rewrite (getSectionInfo_not_opened _ _ _ _ E), Ha. now eexists.
  - rewrite (getSectionInfo_opened _ _ _ _ E). now eexists.
Qed.

Lemma addSectionBlock_returns_on_android P r fname :
  is_android P = true -> always_returns (addSectionBlock P r fname).
Proof.
  intros Ha w. rewrite addSectionBlock_run.
  destruct (getSectionInfo_returns_on_android P fname
              (symbolName (deref r w)) Ha w) as [block Hb].
  destruct (getSectionInfo P fname (symbolName (deref r w)) w)
    as [[o w1] e1]. cbn in Hb. subst o. now exists tt.
Qed.

Lemma addBlockInImage_returns_on_android P r addr :
  is_android P = true -> always_returns (addBlockInImage P r addr).
Proof.
  intros Ha. unfold addBlockInImage.
  destruct (negb (is_null addr)).
  - apply always_returns_bind; [intros w; now eexists|].
    intros [info|]; [|apply always_returns_ret].
    destruct (dli_fname info);
      [now apply addSectionBlock_returns_on_android
      |apply always_returns_ret].
  - now apply addSectionBlock_returns_on_android.
Qed.

Lemma iteratePHDRCallback_returns_on_android P info size r :
  is_android P = true -> always_returns (iteratePHDRCallback P info size r).
Proof.
  intros Ha. unfold iteratePHDRCallback.
  apply always_returns_bind; [intros w; now eexists|]. intros _.
  destruct (dlpi_name info) as [[|c s]|]; try apply always_returns_ret.
  apply always_returns_bind;
    [now apply addSectionBlock_returns_on_android|].
  intros _. apply always_returns_ret.
Qed.

Lemma run_call_returns_on_android P c :
  is_android P = true -> always_returns (run_call P c).
Proof.
  intros Ha.
  assert (Hi : forall r, always_returns (initializeSectionLookup P r)).
  { intros r. unfold initializeSectionLookup, dl_iterate_phdr.
    apply always_returns_bind;
      [now apply addBlockInImage_returns_on_android|]. intros _.
    apply always_returns_bind; [|intros; apply always_returns_ret].
    apply always_returns_dl_iterate_phdr_over.
    intros. now apply iteratePHDRCallback_returns_on_android. }
  destruct c; cbn [run_call].
  - apply Hi.
  - apply Hi.
  - unfold swift_addNewDSOImage.
    apply always_returns_bind; [intros w; now eexists|]. intros w1.
    apply always_returns_bind.
    + destruct (didInitializeLookup _);
        [now apply addBlockInImage_returns_on_android
        |apply always_returns_ret].
    + intros _. apply always_returns_bind; [intros w; now eexists|].
      intros w2. destruct (didInitializeLookup _);
        [now apply addBlockInImage_returns_on_android
        |apply always_returns_ret].
  - apply always_returns_bind; [|intros; apply always_returns_ret].
    intros w. rewrite lookupSymbol_run. now eexists.
Qed.

(** X3: on builds for Android no history of calls to the entry points
    ever ends the process, whatever the loader answers. *)
Theorem android_build_never_terminates :
  forall (cs : list (Platform * ApiCall)) (w : World),
    (forall P c, In (P, c) cs -> is_android P = true) ->
    outcome (run_calls cs w) = Returned tt.
Proof.
  intros cs w Hall.
  assert (H : always_returns (run_calls cs)).
  { clear w. induction cs as [|[P c] rest IH]; cbn [run_calls].
    - apply always_returns_ret.
    - apply always_returns_bind.
      + apply run_call_returns_on_android. apply (Hall P c). now left.
      + intros _. apply IH. intros Q q Hin. apply (Hall Q q). now right. }
  destruct (H w) as [[] Hu]. exact Hu.
Qed.

Lemma android_build_never_terminates_witness :
  outcome (run_calls
             [(Scenario.android, CallInitializeProtocolConformanceLookup);
              (Scenario.android, CallAddNewDSOImage 0x6010);
              (Scenario.android, CallInitializeTypeMetadataRecordLookup)]
             initial_world)
  = Returned tt.
Proof.
  apply android_build_never_terminates.
  intros P c [H|[H|[H|[]]]]; inversion H; reflexivity.
Defined.

(* ===================================================================== *)
(** ** What initialisation reports *)
(* ===================================================================== *)

Lemma addSectionBlock_report P r fname w :
  is_android P = true \/ opens P fname ->
  outcome (addSectionBlock P r fname w) = Returned tt /\
  addBlock_calls (events (addSectionBlock P r fname w))
  = section_report P (symbolName (deref r w)) (addBlock (deref r w)) fname.
Proof.
  intros Hc. rewrite addSectionBlock_run. unfold section_report. cbv zeta.
  destruct (Z.eq_dec (dlopen_result P fname lookup_flags) nullptr) as [E|E].
  - assert (Ha : is_android P = true)
      by (destruct Hc as [Ha|Ho]; [exact Ha|contradiction]).
    rewrite (getSectionInfo_not_opened _ _ _ _ E), Ha.
    assert (Hn : is_null (dlopen_result P fname lookup_flags) = true)
      by (apply Z.eqb_eq; exact E).
    rewrite Hn. split; reflexivity.
  - rewrite (getSectionInfo_opened _ _ _ _ E). cbv zeta.
    assert (Hn : is_null (dlopen_result P fname lookup_flags) = false)
      by (apply Z.eqb_neq; exact E).
    rewrite Hn.
    destruct (is_null (dlsym_result P _ _)); [split; reflexivity|].
    cbn [SectionInfo.size SectionInfo.data].
    destruct (0 <? stored_uint64 P _); split; reflexivity.
Qed.

Lemma iteratePHDRCallback_report P info size r w :
  (has_name (dlpi_name info) = true ->
   is_android P = true \/ opens P (dlpi_name info)) ->
  outcome (iteratePHDRCallback P info size r w) = Returned 0 /\
  addBlock_calls (events (iteratePHDRCallback P info size r w))
  = if has_name (dlpi_name info)
    then section_report P (symbolName (deref r w)) (addBlock (deref r w))
           (dlpi_name info)
    else [].
Proof.
  intros Hc. unfold iteratePHDRCallback.
  erewrite bind_returned by reflexivity.
  cbn [app outcome events world_after fst snd].
  destruct (dlpi_name info) as [[|c s]|] eqn:Hn; cbn [has_name] in *;
    try (split; reflexivity).
  destruct (addSectionBlock_report P r (Some (String c s))
              (store_flag r true w) (Hc eq_refl)) as [Ho Hr].
  destruct (deref_store_constants r r true w) as [A B].
  rewrite A, B in Hr.
  destruct (addSectionBlock P r (Some (String c s)) (store_flag r true w))
    as [[o w1] e1] eqn:E.
  unfold outcome, events in Ho, Hr. cbn [fst snd] in Ho, Hr. subst o.
  erewrite bind_returned by exact E. cbn [ret outcome events fst snd].
  rewrite app_nil_r. split; [reflexivity|exact Hr].
Qed.

Lemma enumerated_names_cons info rest :
  enumerated_names (info :: rest)
  = (if has_name (dlpi_name info) then [dlpi_name info] else [])
      ++ enumerated_names rest.
Proof.
  unfold enumerated_names. cbn [map filter].
  destruct (has_name (dlpi_name info)); reflexivity.
Qed.

Lemma dl_iterate_phdr_over_report P images r :
  forall w,
    (forall name, In name (enumerated_names images) ->
                  is_android P = true \/ opens P name) ->
    outcome (dl_iterate_phdr_over P images (iteratePHDRCallback P) r w)
    = Returned 0 /\
    addBlock_calls
      (events (dl_iterate_phdr_over P images (iteratePHDRCallback P) r w))
    = flat_map (section_report P (symbolName (deref r w))
                  (addBlock (deref r w)))
               (enumerated_names images).
Proof.
  induction images as [|info rest IH]; intros w Hc.
  - split; reflexivity.
  - cbn [dl_iterate_phdr_over]. rewrite enumerated_names_cons in Hc |- *.
    destruct (iteratePHDRCallback_report P info (sizeof_dl_phdr_info P) r w)
      as [Ho Hr].
    { intros Hn. apply Hc. rewrite Hn. now left. }
    pose proof (iteratePHDRCallback_args P info (sizeof_dl_phdr_info P) r w)
      as Ha.
    destruct (iteratePHDRCallback P info (sizeof_dl_phdr_info P) r w)
      as [[o w1] e1] eqn:E.
    unfold outcome, events, world_after in Ho, Hr, Ha.
    cbn [fst snd] in Ho, Hr, Ha. subst o.
    erewrite bind_returned by exact E. cbn [Z.eqb].
    destruct (IH w1) as [Ho2 Hr2].
    { intros name Hn. apply Hc. apply in_or_app. now right. }
    rewrite (same_args_deref _ _ r Ha) in Hr2.
    destruct (deref_store_constants r r true w) as [A B].
    rewrite A, B in Hr2.
    cbn [outcome events fst snd]. split; [exact Ho2|].
    rewrite addBlock_calls_app, Hr, Hr2, flat_map_app.
    destruct (has_name (dlpi_name info)); cbn [flat_map];
      now rewrite ?app_nil_r.
Qed.

(** X4: when no [dlopen] failure can end the process (the build is for
    Android, or the main executable and every enumerated image with a
    non-empty name open), [initializeSectionLookup] returns, and the calls
    it makes through the function pointer are exactly the non-empty
    sections of the main executable and of the named enumeration entries,
    the main executable first and the others in enumeration order. *)
Theorem initializeSectionLookup_reports_every_section :
  forall (P : Platform) (r : InspectArgsPtr) (w : World),
    (is_android P = true \/
     forall name, In name (None :: enumerated_names (loaded_images P)) ->
                  opens P name) ->
    outcome (initializeSectionLookup P r w) = Returned tt /\
    addBlock_calls (events (initializeSectionLookup P r w))
    = flat_map (section_report P (symbolName (deref r w))
                  (addBlock (deref r w)))
               (None :: enumerated_names (loaded_images P)).
Proof.
  intros P r w Hc.
  assert (Hn : forall name,
             In name (None :: enumerated_names (loaded_images P)) ->
             is_android P = true \/ opens P name).
  { intros name Hin. destruct Hc as [Ha|Ho]; [now left|right; now apply Ho]. }
  unfold initializeSectionLookup, dl_iterate_phdr.
  change (addBlockInImage P r nullptr) with (addSectionBlock P r None).
  destruct (addSectionBlock_report P r None w) as [Ho1 Hr1].
  { apply Hn. now left. }
  pose proof (addSectionBlock_keeps_args P r None w) as Ha.
  destruct (addSectionBlock P r None w) as [[o w1] e1] eqn:E.
  unfold outcome, events, world_after in Ho1, Hr1, Ha.
  cbn [fst snd] in Ho1, Hr1, Ha. subst o.
  erewrite bind_returned by exact E.
  destruct (dl_iterate_phdr_over_report P (loaded_images P) r w1) as [Ho2 Hr2].
  { intros name Hin. apply Hn. now right. }
  rewrite (same_args_deref _ _ r Ha) in Hr2.
  destruct (dl_iterate_phdr_over P (loaded_images P) (iteratePHDRCallback P)
              r w1) as [[o w2] e2] eqn:E2.
  unfold outcome, events in Ho2, Hr2. cbn [fst snd] in Ho2, Hr2. subst o.
  erewrite bind_returned by exact E2.
  cbn [ret outcome events fst snd flat_map].
  rewrite app_nil_r, addBlock_calls_app, Hr1, Hr2.
  split; reflexivity.
Qed.

Lemma initializeSectionLookup_reports_every_section_witness :
  (forall name,
     In name (None :: enumerated_names (loaded_images Demo.linux)) ->
     opens Demo.linux name) /\
  outcome (initializeSectionLookup Demo.linux ProtocolConformanceArgsPtr
             initial_world) = Returned tt /\
  addBlock_calls (events (initializeSectionLookup Demo.linux
                            ProtocolConformanceArgsPtr initial_world))
  = [EvAddBlock addImageProtocolConformanceBlockCallback 0x5008 8;
     EvAddBlock addImageProtocolConformanceBlockCallback 0x6008 16].
Proof.
  assert (H : forall name,
             In name (None :: enumerated_names (loaded_images Demo.linux)) ->
             opens Demo.linux name).
  { intros name [H|[H|[H|[]]]]; subst name; vm_compute; discriminate. }
  split; [exact H|].
  exact (initializeSectionLookup_reports_every_section Demo.linux
           ProtocolConformanceArgsPtr initial_world (or_intror H)).
Defined.

(* ===================================================================== *)
(** ** Initialisation does not look at the state *)
(* ===================================================================== *)

Lemma oblivious_ret {A} (a : A) : oblivious (ret a).
Proof. intros w w' H. repeat split; apply H. Qed.

Lemma oblivious_bind {A B} (m : M A) (k : A -> M B) :
  oblivious m -> (forall a, oblivious (k a)) -> oblivious (bind m k).
Proof.
  intros Hm Hk w w' Hw. destruct (Hm w w' Hw) as [Ho [He Hc]].
  destruct (m w) as [[[a|d] w1] e1] eqn:E;
    destruct (m w') as [[[a'|d'] w1'] e1'] eqn:E';
    unfold outcome, events, world_after in Ho, He, Hc;
    cbn [fst snd] in Ho, He, Hc; try discriminate Ho.
  - inversion Ho; subst a' e1'.
    erewrite (bind_returned m k w) by exact E.
    erewrite (bind_returned m k w') by exact E'.
    destruct (Hk a w1 w1' Hc) as [Ho2 [He2 Hc2]].
    unfold outcome, events, world_after. cbn [fst snd].
    unfold outcome, events, world_after in Ho2, He2, Hc2.
    rewrite Ho2, He2. split; [reflexivity|]. split; [reflexivity|exact Hc2].
  - inversion Ho; subst d' e1'.
    erewrite (bind_terminated m k w) by exact E.
    erewrite (bind_terminated m k w') by exact E'.
    split; [reflexivity|]. split; [reflexivity|exact Hc].
Qed.

Lemma oblivious_dl_iterate_phdr_over {D} P images
      (callback : dl_phdr_info -> Z -> D -> M Z) (data : D) :
  (forall info size d, oblivious (callback info size d)) ->
  oblivious (dl_iterate_phdr_over P images callback data).
Proof.
  intros Hcb. induction images as [|info rest IH]; cbn [dl_iterate_phdr_over].
  - apply oblivious_ret.
  - apply oblivious_bind; [apply Hcb|].
    intros z. destruct (z =? 0); [exact IH|apply oblivious_ret].
Qed.

Lemma getSectionInfo_ignores_state P imageName sectionName w w' :
  outcome (getSectionInfo P imageName sectionName w)
  = outcome (getSectionInfo P imageName sectionName w') /\
  events (getSectionInfo P imageName sectionName w)
  = events (getSectionInfo P imageName sectionName w').
Proof.
  destruct (Z.eq_dec (dlopen_result P imageName lookup_flags) nullptr) as [E|E].
  - rewrite !(getSectionInfo_not_opened _ _ _ _ E).
    destruct (is_android P); split; reflexivity.
  - rewrite !(getSectionInfo_opened _ _ _ _ E). split; reflexivity.
Qed.

Lemma addSectionBlock_observed P r fname w :
  outcome (addSectionBlock P r fname w)
  = match outcome (getSectionInfo P fname (symbolName (deref r w)) w) with
    | Returned _ => Returned tt
    | Terminated d => Terminated d
    end /\
  events (addSectionBlock P r fname w)
  = events (getSectionInfo P fname (symbolName (deref r w)) w)
      ++ match outcome (getSectionInfo P fname (symbolName (deref r w)) w)
         with
         | Returned block =>
             if 0 <? SectionInfo.size block
             then [EvAddBlock (addBlock (deref r w))
                     (SectionInfo.data block)
                     (to_uintptr_t P (SectionInfo.size block))]
             else []
         | Terminated _ => []
         end.
Proof.
  rewrite addSectionBlock_run.
  destruct (getSectionInfo P fname (symbolName (deref r w)) w)
    as [[[b|d] w1] e1]; unfold outcome, events; cbn [fst snd];
    rewrite ?app_nil_r; split; reflexivity.
Qed.

Lemma addSectionBlock_oblivious P r fname :
  oblivious (addSectionBlock P r fname).
Proof.
  intros w w' Hw.
  destruct (addSectionBlock_observed P r fname w) as [O E].
  destruct (addSectionBlock_observed P r fname w') as [O' E'].
  destruct (Hw r) as [A B].
  destruct (getSectionInfo_ignores_state P fname (symbolName (deref r w))
              w w') as [Ho He].
  rewrite O, E, O', E', A, B, Ho, He.
  split; [reflexivity|]. split; [reflexivity|].
  intros q.
  rewrite (same_args_deref _ _ q (addSectionBlock_keeps_args P r fname w)),
    (same_args_deref _ _ q (addSectionBlock_keeps_args P r fname w')).
  apply Hw.
Qed.

Lemma addBlockInImage_oblivious P r addr :
  oblivious (addBlockInImage P r addr).
Proof.
  unfold addBlockInImage. destruct (negb (is_null addr)).
  - apply oblivious_bind.
    + intros w w' H. split; [reflexivity|]. split; [reflexivity|exact H].
    + intros [info|]; [|apply oblivious_ret].
      destruct (dli_fname info);
        [apply addSectionBlock_oblivious|apply oblivious_ret].
  - apply addSectionBlock_oblivious.
Qed.

Lemma iteratePHDRCallback_oblivious P info size r :
  oblivious (iteratePHDRCallback P info size r).
Proof.
  unfold iteratePHDRCallback. apply oblivious_bind.
  - intros w w' H. split; [reflexivity|]. split; [reflexivity|].
    intros q. destruct (deref_store_constants q r true w) as [A B].
    destruct (deref_store_constants q r true w') as [A' B'].
    unfold modify, world_after. cbn [fst snd].
    rewrite A, B, A', B'. apply H.
  - intros _. destruct (dlpi_name info) as [[|c s]|];
      try apply oblivious_ret.
    apply oblivious_bind; [apply addSectionBlock_oblivious|].
    intros _. apply oblivious_ret.
Qed.

Lemma initializeSectionLookup_oblivious P r :
  oblivious (initializeSectionLookup P r).
Proof.
  unfold initializeSectionLookup, dl_iterate_phdr.
  apply oblivious_bind; [apply addBlockInImage_oblivious|]. intros _.
  apply oblivious_bind; [|intros; apply oblivious_ret].
  apply oblivious_dl_iterate_phdr_over.
  intros. apply iteratePHDRCallback_oblivious.
Qed.

Lemma initializeSectionLookup_constants P r w :
  same_constants w (world_after (initializeSectionLookup P r w)).
Proof.
  eapply same_constants_args; [|apply initializeSectionLookup_args].
  destruct (outcome (addBlockInImage P r nullptr w));
    [|apply same_constants_refl].
  unfold after_enumeration. destruct (nonempty (loaded_images P));
    [apply same_constants_store|]; apply same_constants_refl.
Qed.

(** X5: what [initializeSectionLookup] returns and which calls it makes do
    not depend on the flags, on the handles held or on a pending [dlerror]
    text; in particular nothing guards against a second call: when a
    first call returns, a second one made right after it repeats every
    loader call and every call through the function pointer of the
    first. *)
Theorem initializeSectionLookup_repeats :
  forall (P : Platform) (r : InspectArgsPtr) (w : World),
    (forall w',
       same_constants w w' ->
       outcome (initializeSectionLookup P r w')
       = outcome (initializeSectionLookup P r w) /\
       events (initializeSectionLookup P r w')
       = events (initializeSectionLookup P r w))
    /\
    (outcome (initializeSectionLookup P r w) = Returned tt ->
     events ((initializeSectionLookup P r ;;; initializeSectionLookup P r) w)
     = events (initializeSectionLookup P r w)
         ++ events (initializeSectionLookup P r w)).
Proof.
  intros P r w. split.
  - intros w' Hw.
    destruct (initializeSectionLookup_oblivious P r w w' Hw) as [Ho [He _]].
    split; congruence.
  - intros Ho.
    pose proof (initializeSectionLookup_constants P r w) as Hc.
    destruct (initializeSectionLookup_oblivious P r w _ Hc) as [_ [He _]].
    destruct (initializeSectionLookup P r w) as [[o w1] e1] eqn:E.
    unfold outcome in Ho. cbn [fst] in Ho. subst o.
    erewrite bind_returned by exact E.
    unfold world_after, events in *. cbn [fst snd] in *.
    now rewrite <- He.
Qed.

Lemma initializeSectionLookup_repeats_witness :
  outcome (initializeSectionLookup Demo.linux ProtocolConformanceArgsPtr
             initial_world) = Returned tt /\
  addBlock_calls
    (events ((initializeSectionLookup Demo.linux ProtocolConformanceArgsPtr
              ;;; initializeSectionLookup Demo.linux
                    ProtocolConformanceArgsPtr) initial_world))
  = [EvAddBlock addImageProtocolConformanceBlockCallback 0x5008 8;
     EvAddBlock addImageProtocolConformanceBlockCallback 0x6008 16;
     EvAddBlock addImageProtocolConformanceBlockCallback 0x5008 8;
     EvAddBlock addImageProtocolConformanceBlockCallback 0x6008 16].
Proof.
  assert (H : outcome (initializeSectionLookup Demo.linux
                         ProtocolConformanceArgsPtr initial_world)
              = Returned tt) by reflexivity.
  split; [exact H|].
  rewrite (proj2 (initializeSectionLookup_repeats Demo.linux
                    ProtocolConformanceArgsPtr initial_world) H).
  reflexivity.
Defined.

(* ===================================================================== *)
(** ** The two registries do not interfere *)
(* ===================================================================== *)

Lemma other_involutive r : other (other r) = r.
Proof. destruct r; reflexivity. Qed.

Lemma only_for_transfer w0 w r e :
  same_constants w0 w ->
  only_for (symbolName (deref r w)) (addBlock (deref r w)) e ->
  only_for (symbolName (deref r w0)) (addBlock (deref r w0)) e.
Proof. intros H. destruct (H r) as [A B]. now rewrite A, B. Qed.

Lemma enumeration_event_only_for P w r info e :
  enumeration_event P w r info e ->
  only_for (symbolName (deref r w)) (addBlock (deref r w)) e.
Proof.
  destruct (deref_store_constants r r true w) as [A B].
  destruct e; cbn; auto.
  - now rewrite A.
  - intros [block [H _]]. now rewrite B in H.
Qed.

Lemma addBlockInImage_only_for P w0 r addr :
  emits_under (same_constants w0)
              (only_for (symbolName (deref r w0)) (addBlock (deref r w0)))
              (addBlockInImage P r addr).
Proof.
  intros w Hw. split.
  - eapply same_constants_args; [exact Hw|].
    apply addBlockInImage_keeps_args.
  - eapply Forall_impl; [|apply addBlockInImage_events].
    intros e He. apply (only_for_transfer w0 w); [exact Hw|].
    eapply notification_event_only_for, He.
Qed.

Lemma iteratePHDRCallback_only_for P w0 info size r :
  emits_under (same_constants w0)
              (only_for (symbolName (deref r w0)) (addBlock (deref r w0)))
              (iteratePHDRCallback P info size r).
Proof.
  intros w Hw. split.
  - eapply same_constants_args; [|apply iteratePHDRCallback_args].
    now apply same_constants_store.
  - eapply Forall_impl; [|apply iteratePHDRCallback_events].
    intros e He. apply (only_for_transfer w0 w); [exact Hw|].
    eapply enumeration_event_only_for, He.
Qed.

Lemma emits_under_enumeration I Q P images r :
  (forall info size, emits_under I Q (iteratePHDRCallback P info size r)) ->
  emits_under I Q (dl_iterate_phdr_over P images (iteratePHDRCallback P) r).
Proof.
  intros Hcb. induction images as [|info rest IH]; cbn [dl_iterate_phdr_over].
  - apply emits_under_ret.
  - apply emits_under_bind; [apply Hcb|].
    intros z. destruct (z =? 0); [exact IH|apply emits_under_ret].
Qed.

(** X6: initialising one registry leaves the other registry as it was,
    flag included, and every symbol it looks up and every callback it
    calls is the one of the registry being initialised; with the static
    symbol names and callbacks in place, none of its events therefore
    belongs to the other registry. *)
Theorem initializeSectionLookup_touches_one_registry :
  forall (P : Platform) (r : InspectArgsPtr) (w : World),
    deref (other r) (world_after (initializeSectionLookup P r w))
    = deref (other r) w /\
    Forall (only_for (symbolName (deref r w)) (addBlock (deref r w)))
           (events (initializeSectionLookup P r w)) /\
    (constants_intact w ->
     Forall (fun e => ~ event_for (symbolName (deref (other r) w))
                                  (addBlock (deref (other r) w)) e)
            (events (initializeSectionLookup P r w))).
Proof.
  intros P r w.
  assert (H2 : Forall (only_for (symbolName (deref r w))
                         (addBlock (deref r w)))
                      (events (initializeSectionLookup P r w))).
  { assert (H : emits_under (same_constants w)
                  (only_for (symbolName (deref r w)) (addBlock (deref r w)))
                  (initializeSectionLookup P r)).
    { unfold initializeSectionLookup, dl_iterate_phdr.
      apply emits_under_bind; [apply addBlockInImage_only_for|]. intros _.
      apply emits_under_bind; [|intros; apply emits_under_ret].
      apply emits_under_enumeration.
      intros. apply iteratePHDRCallback_only_for. }
    exact (proj2 (H w (same_constants_refl w))). }
  split; [|split; [exact H2|]].
  - rewrite (same_args_deref _ _ (other r)
               (initializeSectionLookup_args P r w)).
    destruct (outcome (addBlockInImage P r nullptr w)); [|reflexivity].
    unfold after_enumeration. destruct (nonempty (loaded_images P));
      [apply deref_store_other|reflexivity].
  - intros Hc. eapply Forall_impl; [|exact H2].
    intros e He. apply only_for_other; [exact Hc|].
    now rewrite other_involutive.
Qed.

Lemma initializeSectionLookup_touches_one_registry_witness :
  constants_intact Demo.ready_world /\
  Forall (fun e => ~ event_for ProtocolConformancesSymbol
                       addImageProtocolConformanceBlockCallback e)
         (events (initializeSectionLookup Demo.linux
                    TypeMetadataRecordArgsPtr Demo.ready_world)).
Proof.
  assert (Hc : constants_intact Demo.ready_world)
    by (repeat split; reflexivity).
  split; [exact Hc|].
  exact (proj2 (proj2 (initializeSectionLookup_touches_one_registry
                         Demo.linux TypeMetadataRecordArgsPtr
                         Demo.ready_world)) Hc).
Defined.

(* ===================================================================== *)
(** ** Which length prefixes count as empty *)
(* ===================================================================== *)

Lemma byte_value_zero b : byte_value b = 0 -> b = x00.
Proof. destruct b; cbv; intros H; (reflexivity || discriminate H). Qed.

Lemma zero_prefix_iff P a : zero_prefix P a <-> stored_uint64 P a = 0.
Proof.
  unfold zero_prefix, stored_uint64.
  change (Z.to_nat sizeof_uint64_t) with 8%nat. cbn [memcpy_bytes].
  replace (a + 1 + 1) with (a + 2) by lia.
  replace (a + 2 + 1) with (a + 3) by lia.
  replace (a + 3 + 1) with (a + 4) by lia.
  replace (a + 4 + 1) with (a + 5) by lia.
  replace (a + 5 + 1) with (a + 6) by lia.
  replace (a + 6 + 1) with (a + 7) by lia.
  replace (memory P a) with (memory P (a + 0)) by (f_equal; lia).
  cbv zeta. split.
  - intros H.
    repeat match goal with
           | F : Forall _ (_ :: _) |- _ => inversion F; subst; clear F
           end.
    repeat match goal with
           | E : memory P _ = x00 |- _ => rewrite E; clear E
           end.
    destruct (big_endian P); reflexivity.
  - intros H.
    pose proof (byte_value_range (memory P (a + 0))).
    pose proof (byte_value_range (memory P (a + 1))).
    pose proof (byte_value_range (memory P (a + 2))).
    pose proof (byte_value_range (memory P (a + 3))).
    pose proof (byte_value_range (memory P (a + 4))).
    pose proof (byte_value_range (memory P (a + 5))).
    pose proof (byte_value_range (memory P (a + 6))).
    pose proof (byte_value_range (memory P (a + 7))).
    repeat constructor; apply byte_value_zero;
      destruct (big_endian P); lia.
Qed.

(** X7: when the handle opens, the length [getSectionInfo] returns is zero
    exactly when the section symbol is missing or all 8 bytes of the
    length prefix are zero, whatever the byte order of the target; any
    non-zero byte in the prefix makes the section count as non-empty. *)
Theorem getSectionInfo_zero_length :
  forall (P : Platform) (imageName : cstring) (sectionName : string)
         (w : World),
    let symbol := dlsym_result P (dlopen_result P imageName lookup_flags)
                    sectionName in
    dlopen_result P imageName lookup_flags <> nullptr ->
    exists block,
      outcome (getSectionInfo P imageName sectionName w) = Returned block /\
      (SectionInfo.size block = 0 <->
       symbol = nullptr \/ zero_prefix P symbol).
Proof.
  intros P imageName sectionName w symbol Hh.
  rewrite (getSectionInfo_opened _ _ _ _ Hh). cbv zeta. fold symbol.
  eexists. split; [reflexivity|].
  destruct (is_null symbol) eqn:Hn; cbn [SectionInfo.size absent].
  - apply Z.eqb_eq in Hn. split; [now left|reflexivity].
  - apply Z.eqb_neq in Hn. rewrite zero_prefix_iff. split.
    + intros H. now right.
    + intros [H|H]; [contradiction|exact H].
Qed.

Lemma getSectionInfo_zero_length_witness :
  dlopen_result Demo.linux (Some "libEmpty.so") lookup_flags <> nullptr /\
  exists block,
    outcome (getSectionInfo Demo.linux (Some "libEmpty.so")
               ProtocolConformancesSymbol initial_world) = Returned block /\
    (SectionInfo.size block = 0 <->
     0x7000 = nullptr \/ zero_prefix Demo.linux 0x7000).
Proof.
  assert (H : dlopen_result Demo.linux (Some "libEmpty.so") lookup_flags
              <> nullptr) by (vm_compute; discriminate).
  split; [exact H|].
  exact (getSectionInfo_zero_length Demo.linux (Some "libEmpty.so")
           ProtocolConformancesSymbol initial_world H).
Defined.

(* ===================================================================== *)
(** ** A non-empty section is reported *)
(* ===================================================================== *)

Lemma to_uintptr_t_exact P len :
  0 <= len < 2 ^ 64 ->
  uintptr_width P = Ptr64 \/ len < 2 ^ 32 ->
  to_uintptr_t P len = len.
Proof.
  intros Hr Hc. unfold to_uintptr_t.
  destruct (uintptr_width P); cbn [pointer_bits]; apply Z.mod_small.
  - destruct Hc as [Hc|Hc]; [discriminate|lia].
  - lia.
Qed.

Lemma iteratePHDRCallback_calls P info size r w :
  has_name (dlpi_name info) = true ->
  addBlock_calls (events (iteratePHDRCallback P info size r w))
  = addBlock_calls (events (addSectionBlock P r (dlpi_name info)
                              (store_flag r true w))).
Proof.
  intros Hn. unfold iteratePHDRCallback.
  erewrite bind_returned by reflexivity. cbn [app events world_after fst snd].
  destruct (dlpi_name info) as [[|c s]|]; try discriminate Hn.
  destruct (addSectionBlock P r (Some (String c s)) (store_flag r true w))
    as [[[u|d] w1] e1] eqn:E.
  - erewrite bind_returned by exact E. cbn [ret events snd].
    now rewrite app_nil_r.
  - erewrite bind_terminated by exact E. reflexivity.
Qed.

Lemma addBlockInImage_calls P r addr w :
  addr = nullptr \/ image_of_address P addr <> None ->
  addBlock_calls (events (addBlockInImage P r addr w))
  = addBlock_calls (events (addSectionBlock P r (image_of_address P addr) w)).
Proof.
  unfold addBlockInImage, image_of_address. intros Hc.
  destruct (is_null addr) eqn:Hn; cbn [negb]; [reflexivity|].
  destruct Hc as [Hc|Hc]; [subst addr; discriminate Hn|].
  erewrite bind_returned by apply dladdr_run. cbn [events snd app].
  destruct (dladdr_result P addr) as [info|]; [|now elim Hc].
  destruct (dli_fname info) as [f|] eqn:Hf; [|now elim Hc].
  reflexivity.
Qed.

(** X8: a section that is there and not empty is reported, once, on both
    paths: when the image opens, its section symbol is found and the
    length prefix is above zero, [iteratePHDRCallback] (for an entry with
    that non-empty name) and [addBlockInImage] (for an address standing
    for that image) call the registry's callback exactly once, with the
    address just past the 8-byte prefix; the size argument is the length
    itself whenever it fits [uintptr_t], and the length modulo 2^32 on a
    target with 32-bit pointers. *)
Theorem nonempty_section_reported_once :
  forall (P : Platform) (r : InspectArgsPtr) (w : World) (name : cstring),
    let symbol := dlsym_result P (dlopen_result P name lookup_flags)
                    (symbolName (deref r w)) in
    let len := stored_uint64 P symbol in
    let call := EvAddBlock (addBlock (deref r w)) (symbol + 8)
                  (to_uintptr_t P len) in
    opens P name ->
    symbol <> nullptr ->
    0 < len ->
    (forall info size,
       dlpi_name info = name -> has_name name = true ->
       addBlock_calls (events (iteratePHDRCallback P info size r w))
       = [call]) /\
    (forall addr,
       image_of_address P addr = name ->
       addr = nullptr \/ name <> None ->
       addBlock_calls (events (addBlockInImage P r addr w)) = [call]) /\
    (uintptr_width P = Ptr64 \/ len < 2 ^ 32 -> to_uintptr_t P len = len) /\
    (uintptr_width P = Ptr32 -> to_uintptr_t P len = len mod 2 ^ 32).
Proof.
  intros P r w name symbol len call Ho Hs Hz.
  split; [|split; [|split]].
  - intros info size Hi Hn. subst name.
    rewrite (iteratePHDRCallback_calls _ _ _ _ _ Hn).
    destruct (deref_store_constants r r true w) as [A B].
    pose proof (addSectionBlock_reports P r (dlpi_name info)
                  (store_flag r true w)) as H.
    cbv zeta in H. rewrite A, B in H. now apply H.
  - intros addr Hi Hc. subst name.
    rewrite (addBlockInImage_calls _ _ _ _ Hc).
    now apply addSectionBlock_reports.
  - apply to_uintptr_t_exact, stored_uint64_range.
  - intros H32. unfold to_uintptr_t. now rewrite H32.
Qed.

Lemma nonempty_section_reported_once_witness :
  opens Demo.linux (Some "libFoo.so") /\
  addBlock_calls
    (events (iteratePHDRCallback Demo.linux
               (mk_dl_phdr_info 0x6000 (Some "libFoo.so")) 64
               ProtocolConformanceArgsPtr initial_world))
  = [EvAddBlock addImageProtocolConformanceBlockCallback 0x6008 16] /\
  addBlock_calls
    (events (addBlockInImage Demo.linux ProtocolConformanceArgsPtr 0x6010
               initial_world))
  = [EvAddBlock addImageProtocolConformanceBlockCallback 0x6008 16].
Proof.
  assert (Ho : opens Demo.linux (Some "libFoo.so"))
    by (vm_compute; discriminate).
  assert (Hs : dlsym_result Demo.linux
                 (dlopen_result Demo.linux (Some "libFoo.so") lookup_flags)
                 (symbolName (deref ProtocolConformanceArgsPtr
                                initial_world)) <> nullptr)
    by (vm_compute; discriminate).
  assert (Hz : 0 < stored_uint64 Demo.linux
                     (dlsym_result Demo.linux
                        (dlopen_result Demo.linux (Some "libFoo.so")
                           lookup_flags)
                        (symbolName (deref ProtocolConformanceArgsPtr
                                       initial_world))))
    by (vm_compute; reflexivity).
  destruct (nonempty_section_reported_once Demo.linux
              ProtocolConformanceArgsPtr initial_world (Some "libFoo.so")
              Ho Hs Hz) as [H1 [H2 _]].
  split; [exact Ho|]. split.
  - exact (H1 (mk_dl_phdr_info 0x6000 (Some "libFoo.so")) 64
              eq_refl eq_refl).
  - apply (H2 0x6010 eq_refl). right. discriminate.
Defined.

(* ===================================================================== *)
(** ** Addresses that stand for no file *)
(* ===================================================================== *)

Lemma addBlockInImage_unattributed P r addr w :
  addr <> nullptr ->
  image_of_address P addr = None ->
  addBlockInImage P r addr w = (Returned tt, w, [EvDladdr addr]).
Proof.
  intros Ha Hi. unfold addBlockInImage, image_of_address in *.
  assert (Hn : is_null addr = false) by (apply Z.eqb_neq; exact Ha).
  rewrite Hn in *. cbn [negb].
  erewrite bind_returned by apply dladdr_run.
  destruct (dladdr_result P addr) as [info|]; [|reflexivity].
  rewrite Hi. reflexivity.
Qed.

(** X9: a notification for a non-null address that [dladdr] cannot
    attribute, or attributes to an image without a file name, changes
    nothing and reports nothing: each initialised registry makes its one
    [dladdr] call and stops, and in particular the null file name is not
    taken for the main executable. *)
Theorem swift_addNewDSOImage_ignores_unattributed :
  forall (P : Platform) (addr : pointer) (w : World),
    addr <> nullptr ->
    (dladdr_result P addr = None \/
     exists info, dladdr_result P addr = Some info /\ dli_fname info = None) ->
    swift_addNewDSOImage P addr w
    = (Returned tt, w, repeat (EvDladdr addr) (initialized_registries w)).
Proof.
  intros P addr w Ha Hc.
  assert (Hi : image_of_address P addr = None).
  { unfold image_of_address.
    destruct (is_null addr); [reflexivity|].
    destruct Hc as [Hc|[info [Hc Hf]]]; rewrite Hc; [reflexivity|exact Hf]. }
  unfold swift_addNewDSOImage, initialized_registries, flag.
  cbn [deref].
  erewrite bind_returned by apply get_run.
  destruct (didInitializeLookup (ProtocolConformanceArgs w)).
  - erewrite bind_returned
      by (apply addBlockInImage_unattributed; assumption).
    erewrite bind_returned by apply get_run.
    destruct (didInitializeLookup (TypeMetadataRecordArgs w)).
    + rewrite (addBlockInImage_unattributed _ _ _ _ Ha Hi). reflexivity.
    + reflexivity.
  - erewrite bind_returned by apply ret_run.
    erewrite bind_returned by apply get_run.
    destruct (didInitializeLookup (TypeMetadataRecordArgs w)).
    + rewrite (addBlockInImage_unattributed _ _ _ _ Ha Hi). reflexivity.
    + reflexivity.
Qed.

Lemma swift_addNewDSOImage_ignores_unattributed_witness :
  0x8010 <> nullptr /\
  (exists info,
     dladdr_result Scenario.linux 0x8010 = Some info /\
     dli_fname info = None) /\
  swift_addNewDSOImage Scenario.linux 0x8010 Scenario.both_ready
  = (Returned tt, Scenario.both_ready, [EvDladdr 0x8010; EvDladdr 0x8010]).
Proof.
  assert (Ha : 0x8010 <> nullptr) by (vm_compute; discriminate).
  assert (Hc : exists info,
             dladdr_result Scenario.linux 0x8010 = Some info /\
             dli_fname info = None)
    by (eexists; split; reflexivity).
  split; [exact Ha|]. split; [exact Hc|].
  exact (swift_addNewDSOImage_ignores_unattributed Scenario.linux 0x8010
           Scenario.both_ready Ha (or_intror Hc)).
Defined.

(* ===================================================================== *)
(** ** No image is ever loaded *)
(* ===================================================================== *)

Lemma emits_only_under {A} Q (m : M A) :
  emits_under (fun _ => True) Q m -> emits_only Q m.
Proof. intros H w. exact (proj2 (H w I)). Qed.

Lemma emits_under_only {A} Q (m : M A) :
  emits_only Q m -> emits_under (fun _ => True) Q m.
Proof. intros H w _. split; [exact I|apply H]. Qed.

Lemma lookup_flags_no_load : Z.land lookup_flags RTLD_NOLOAD = RTLD_NOLOAD.
Proof. reflexivity. Qed.

Lemma addBlockInImage_never_loads P r addr :
  emits_only never_loads (addBlockInImage P r addr).
Proof.
  intros w. eapply Forall_impl; [|apply addBlockInImage_events].
  intros e He. destruct e; cbn in *; auto.
  destruct He as [_ Hf]. subst flags. apply lookup_flags_no_load.
Qed.

Lemma iteratePHDRCallback_never_loads P info size r :
  emits_only never_loads (iteratePHDRCallback P info size r).
Proof.
  intros w. eapply Forall_impl; [|apply iteratePHDRCallback_events].
  intros e He. destruct e; cbn in *; auto.
  destruct He as [_ [Hf _]]. subst flags. apply lookup_flags_no_load.
Qed.

Lemma run_call_never_loads P c : emits_only never_loads (run_call P c).
Proof.
  destruct c; cbn [run_call].
  - unfold initializeProtocolConformanceLookup, initializeSectionLookup,
      dl_iterate_phdr.
    apply emits_only_bind; [apply addBlockInImage_never_loads|]. intros _.
    apply emits_only_bind; [|intros; apply emits_only_ret].
    apply emits_only_under, emits_under_dl_iterate_phdr_over.
    intros. apply emits_under_only, iteratePHDRCallback_never_loads.
  - unfold initializeTypeMetadataRecordLookup, initializeSectionLookup,
      dl_iterate_phdr.
    apply emits_only_bind; [apply addBlockInImage_never_loads|]. intros _.
    apply emits_only_bind; [|intros; apply emits_only_ret].
    apply emits_only_under, emits_under_dl_iterate_phdr_over.
    intros. apply emits_under_only, iteratePHDRCallback_never_loads.
  - unfold swift_addNewDSOImage.
    apply emits_only_bind; [intros w; constructor|]. intros w1.
    apply emits_only_bind.
    + destruct (didInitializeLookup _);
        [apply addBlockInImage_never_loads|apply emits_only_ret].
    + intros _. apply emits_only_bind; [intros w; constructor|]. intros w2.
      destruct (didInitializeLookup _);
        [apply addBlockInImage_never_loads|apply emits_only_ret].
  - apply emits_only_bind; [|intros; apply emits_only_ret].
    intros w. rewrite lookupSymbol_run. repeat constructor.
Qed.

(** X10: through any history of calls to the entry points, every [dlopen]
    the code makes carries [RTLD_NOLOAD]: the code asks for images that
    are already resident and never causes one to be loaded. *)
Theorem entry_points_never_load_an_image :
  forall (cs : list (Platform * ApiCall)) (w : World),
    Forall never_loads (events (run_calls cs w)).
Proof.
  intros cs. change (emits_only never_loads (run_calls cs)).
  induction cs as [|[P c] rest IH]; cbn [run_calls].
  - apply emits_only_ret.
  - apply emits_only_bind; [apply run_call_never_loads|].
    intros _. exact IH.
Qed.

(* ===================================================================== *)
(** ** Both registries initialised; initialise, then notify *)
(* ===================================================================== *)

Lemma same_constants_of_args w w' : same_args w w' -> same_constants w w'.
Proof. intros H r. now rewrite (same_args_deref _ _ r H). Qed.

(** X11: with both registries initialised, a load notification is the
    notification of the conformance registry followed by that of the
    type-metadata registry; when the first returns, the events of the
    whole are the events of each registry's own notification, one after
    the other. *)
Theorem swift_addNewDSOImage_notifies_both_in_order :
  forall (P : Platform) (addr : pointer) (w : World),
    flag ProtocolConformanceArgsPtr w = true ->
    flag TypeMetadataRecordArgsPtr w = true ->
    swift_addNewDSOImage P addr w
    = (addBlockInImage P ProtocolConformanceArgsPtr addr
       ;;; addBlockInImage P TypeMetadataRecordArgsPtr addr) w
    /\
    (outcome (addBlockInImage P ProtocolConformanceArgsPtr addr w)
     = Returned tt ->
     events (swift_addNewDSOImage P addr w)
     = events (addBlockInImage P ProtocolConformanceArgsPtr addr w)
         ++ events (addBlockInImage P TypeMetadataRecordArgsPtr addr w)).
Proof.
  intros P addr w H1 H2.
  assert (E : swift_addNewDSOImage P addr w
              = (addBlockInImage P ProtocolConformanceArgsPtr addr
                 ;;; addBlockInImage P TypeMetadataRecordArgsPtr addr) w).
  { unfold swift_addNewDSOImage, flag in *. cbn [deref] in *.
    erewrite bind_returned by apply get_run. rewrite H1.
    cbn [app outcome world_after events fst snd].
    pose proof (addBlockInImage_keeps_args P ProtocolConformanceArgsPtr
                  addr w) as [_ Hk].
    destruct (addBlockInImage P ProtocolConformanceArgsPtr addr w)
      as [[[u|d] w1] e1] eqn:E.
    - erewrite !bind_returned by (exact E || apply get_run).
      cbn [world_after fst snd] in Hk. rewrite Hk, H2.
      cbn [app outcome world_after events fst snd]. reflexivity.
    - erewrite !bind_terminated by exact E. reflexivity. }
  split; [exact E|].
  intros Ho. rewrite E.
  pose proof (addBlockInImage_keeps_args P ProtocolConformanceArgsPtr
                addr w) as Hk.
  destruct (addBlockInImage P ProtocolConformanceArgsPtr addr w)
    as [[o w1] e1] eqn:E1.
  unfold outcome in Ho. cbn [fst] in Ho. subst o.
  erewrite bind_returned by exact E1.
  cbn [world_after fst snd] in Hk.
  destruct (addBlockInImage_oblivious P TypeMetadataRecordArgsPtr addr w w1
              (same_constants_of_args _ _ Hk)) as [_ [He _]].
  cbn [events snd]. now rewrite He.
Qed.

Lemma swift_addNewDSOImage_notifies_both_in_order_witness :
  flag ProtocolConformanceArgsPtr Scenario.both_ready = true /\
  flag TypeMetadataRecordArgsPtr Scenario.both_ready = true /\
  events (swift_addNewDSOImage Demo.linux 0x6010 Scenario.both_ready)
  = events (addBlockInImage Demo.linux ProtocolConformanceArgsPtr 0x6010
              Scenario.both_ready)
      ++ events (addBlockInImage Demo.linux TypeMetadataRecordArgsPtr 0x6010
                   Scenario.both_ready).
Proof.
  assert (H1 : flag ProtocolConformanceArgsPtr Scenario.both_ready = true)
    by reflexivity.
  assert (H2 : flag TypeMetadataRecordArgsPtr Scenario.both_ready = true)
    by reflexivity.
  split; [exact H1|]. split; [exact H2|].
  apply (proj2 (swift_addNewDSOImage_notifies_both_in_order Demo.linux
                  0x6010 Scenario.both_ready H1 H2)).
  reflexivity.
Defined.

(** X12: once [initializeSectionLookup] has returned for a registry and
    the enumeration listed at least one entry, the flag of that registry
    is set, so that (the other registry not being initialised) a later
    load notification is exactly the notification of that registry; with
    an empty enumeration the flag is left as it was. *)
Theorem initialize_then_notify :
  forall (P P' : Platform) (r : InspectArgsPtr) (w : World) (addr : pointer),
    let w1 := world_after (initializeSectionLookup P r w) in
    outcome (initializeSectionLookup P r w) = Returned tt ->
    (loaded_images P <> [] ->
     flag r w1 = true /\
     (flag (other r) w = false ->
      swift_addNewDSOImage P' addr w1 = addBlockInImage P' r addr w1))
    /\
    (loaded_images P = [] -> flag r w1 = flag r w).
Proof.
  intros P P' r w addr w1 Ho.
  pose proof (initializeSectionLookup_args P r w) as Ha. fold w1 in Ha.
  assert (Hfirst : exists u, outcome (addBlockInImage P r nullptr w)
                             = Returned u).
  { unfold initializeSectionLookup in Ho.
    destruct (addBlockInImage P r nullptr w) as [[[u|d] w0] e0] eqn:E.
    - now exists u.
    - erewrite bind_terminated in Ho by exact E. discriminate Ho. }
  destruct Hfirst as [u Hu]. rewrite Hu in Ha.
  unfold after_enumeration in Ha. split.
  - intros Hne.
    assert (Hn : nonempty (loaded_images P) = true)
      by (destruct (loaded_images P); [now elim Hne|reflexivity]).
    rewrite Hn in Ha.
    assert (Hr : flag r w1 = true)
      by (rewrite (same_args_flag _ _ r Ha); apply flag_store_same).
    split; [exact Hr|]. intros Hoth.
    assert (Hq : flag (other r) w1 = false).
    { rewrite (same_args_flag _ _ (other r) Ha). unfold flag.
      now rewrite deref_store_other. }
    destruct r; cbn [other] in Hq.
    + rewrite (swift_addNewDSOImage_second_skipped _ _ _ Hq). now rewrite Hr.
    + rewrite (swift_addNewDSOImage_first_skipped _ _ _ Hq). now rewrite Hr.
  - intros He. rewrite He in Ha. cbn [nonempty] in Ha.
    apply (same_args_flag _ _ r Ha).
Qed.

Lemma initialize_then_notify_witness :
  outcome (initializeSectionLookup Demo.linux ProtocolConformanceArgsPtr
             initial_world) = Returned tt /\
  loaded_images Demo.linux <> [] /\
  swift_addNewDSOImage Scenario.linux 0x6010 Demo.ready_world
  = addBlockInImage Scenario.linux ProtocolConformanceArgsPtr 0x6010
      Demo.ready_world.
Proof.
  assert (Ho : outcome (initializeSectionLookup Demo.linux
                          ProtocolConformanceArgsPtr initial_world)
               = Returned tt) by reflexivity.
  assert (Hne : loaded_images Demo.linux <> []) by discriminate.
  split; [exact Ho|]. split; [exact Hne|].
  exact (proj2 (proj1 (initialize_then_notify Demo.linux Scenario.linux
                         ProtocolConformanceArgsPtr initial_world 0x6010 Ho)
                  Hne) eq_refl).
Defined.

(* ===================================================================== *)
(** ** The enumeration is never cut short *)
(* ===================================================================== *)

Lemma iteratePHDRCallback_returns_zero P info size r w z :
  outcome (iteratePHDRCallback P info size r w) = Returned z -> z = 0.
Proof.
  unfold iteratePHDRCallback.
  erewrite bind_returned by reflexivity. cbn [outcome world_after fst snd].
  destruct (dlpi_name info) as [[|c s]|];
    try (cbn; intros H; inversion H; reflexivity).
  destruct (addSectionBlock P r (Some (String c s)) (store_flag r true w))
    as [[[u|d] w1] e1] eqn:E.
  - erewrite bind_returned by exact E. cbn. intros H. now inversion H.
  - erewrite bind_terminated by exact E. cbn. discriminate.
Qed.

Lemma dl_iterate_phdr_over_count_exact P images r n :
  forall w z,
    outcome (dl_iterate_phdr_over P images (iteratePHDRCallback P) r w)
    = Returned z ->
    count_dlopen n
      (events (dl_iterate_phdr_over P images (iteratePHDRCallback P) r w))
    = List.length (filter (named_entry n) images).
Proof.
  induction images as [|info rest IH]; intros w z Ho; [reflexivity|].
  cbn [dl_iterate_phdr_over filter] in *.
  pose proof (iteratePHDRCallback_count P info (sizeof_dl_phdr_info P)
                r w n) as Hc.
  pose proof (iteratePHDRCallback_returns_zero P info
                (sizeof_dl_phdr_info P) r w) as Hz.
  destruct (iteratePHDRCallback P info (sizeof_dl_phdr_info P) r w)
    as [[[z1|d] w1] e1] eqn:E.
  - rewrite (Hz z1 eq_refl) in E.
    erewrite bind_returned in Ho |- * by exact E.
    cbn [Z.eqb outcome events fst snd] in Ho, Hc |- *.
    rewrite count_dlopen_app, Hc, (IH w1 z Ho).
    destruct (named_entry n info); reflexivity.
  - erewrite bind_terminated in Ho by exact E. discriminate Ho.
Qed.

Lemma named_entries_of_name c s images :
  List.length (filter (named_entry (Some (String c s))) images)
  = count_entries (Some (String c s)) images.
Proof.
  unfold count_entries. induction images as [|info rest IH]; [reflexivity|].
  cbn [filter]. unfold named_entry at 1.
  destruct (dlpi_name info) as [[|c' s']|].
  - exact IH.
  - destruct (cstring_eqb (Some (String c' s')) (Some (String c s)));
      cbn [List.length]; now rewrite IH.
  - exact IH.
Qed.

(** X13: [iteratePHDRCallback] only ever returns 0, so the enumeration is
    never cut short: when [initializeSectionLookup] returns, every
    enumeration entry with a non-empty name has been opened, each image
    exactly as often as the enumeration lists its name. *)
Theorem initializeSectionLookup_visits_every_entry :
  forall (P : Platform) (r : InspectArgsPtr) (w : World),
    (forall info size z,
       outcome (iteratePHDRCallback P info size r w) = Returned z -> z = 0)
    /\
    (outcome (initializeSectionLookup P r w) = Returned tt ->
     forall c s,
       count_dlopen (Some (String c s))
                    (events (initializeSectionLookup P r w))
       = count_entries (Some (String c s)) (loaded_images P)).
Proof.
  intros P r w. split.
  - intros info size z. apply iteratePHDRCallback_returns_zero.
  - intros Ho c s.
    unfold initializeSectionLookup, dl_iterate_phdr in *.
    pose proof (addSectionBlock_count P r None w (Some (String c s))) as H1.
    change (addBlockInImage P r nullptr) with (addSectionBlock P r None)
      in *.
    destruct (addSectionBlock P r None w) as [[[u|d] w1] e1] eqn:E.
    + erewrite bind_returned in Ho |- * by exact E.
      cbn [outcome events fst snd cstring_eqb] in Ho, H1 |- *.
      pose proof (dl_iterate_phdr_over_count_exact P (loaded_images P) r
                    (Some (String c s)) w1) as H2.
      destruct (dl_iterate_phdr_over P (loaded_images P)
                  (iteratePHDRCallback P) r w1) as [[[z|d] w2] e2] eqn:E2.
      * erewrite bind_returned by exact E2.
        cbn [ret outcome events fst snd] in H2 |- *.
        rewrite app_nil_r, count_dlopen_app, H1, (H2 z eq_refl).
        apply named_entries_of_name.
      * erewrite bind_terminated in Ho by exact E2. discriminate Ho.
    + erewrite bind_terminated in Ho by exact E. discriminate Ho.
Qed.

Lemma initializeSectionLookup_visits_every_entry_witness :
  outcome (initializeSectionLookup Demo.linux TypeMetadataRecordArgsPtr
             initial_world) = Returned tt /\
  count_dlopen (Some "libEmpty.so")
    (events (initializeSectionLookup Demo.linux TypeMetadataRecordArgsPtr
               initial_world))
  = 1%nat.
Proof.
  assert (Ho : outcome (initializeSectionLookup Demo.linux
                          TypeMetadataRecordArgsPtr initial_world)
               = Returned tt) by reflexivity.
  split; [exact Ho|].
  exact (proj2 (initializeSectionLookup_visits_every_entry Demo.linux
                  TypeMetadataRecordArgsPtr initial_world) Ho
           "l"%char "ibEmpty.so").
Defined.

(* ===================================================================== *)
(** ** A load notification with a null address *)
(* ===================================================================== *)

(** A notification whose first half returns is the first half followed by
    the second, each half as it would run from the starting state. *)
Lemma swift_addNewDSOImage_split P addr w :
  outcome ((if flag ProtocolConformanceArgsPtr w
            then addBlockInImage P ProtocolConformanceArgsPtr addr
            else ret tt) w) = Returned tt ->
  outcome (swift_addNewDSOImage P addr w)
  = outcome ((if flag TypeMetadataRecordArgsPtr w
              then addBlockInImage P TypeMetadataRecordArgsPtr addr
              else ret tt) w) /\
  events (swift_addNewDSOImage P addr w)
  = events ((if flag ProtocolConformanceArgsPtr w
             then addBlockInImage P ProtocolConformanceArgsPtr addr
             else ret tt) w)
      ++ events ((if flag TypeMetadataRecordArgsPtr w
                  then addBlockInImage P TypeMetadataRecordArgsPtr addr
                  else ret tt) w).
Proof.
  intros Ho.
  destruct (flag ProtocolConformanceArgsPtr w) eqn:H1.
  - destruct (flag TypeMetadataRecordArgsPtr w) eqn:H2.
    + unfold swift_addNewDSOImage, flag in *. cbn [deref] in *.
      erewrite bind_returned by apply get_run. rewrite H1.
      pose proof (addBlockInImage_keeps_args P ProtocolConformanceArgsPtr
                    addr w) as Hk.
      destruct (addBlockInImage P ProtocolConformanceArgsPtr addr w)
        as [[o w1] e1] eqn:E.
      unfold outcome in Ho. cbn [fst] in Ho. subst o.
      cbn [world_after fst snd] in Hk.
      destruct (addBlockInImage_oblivious P TypeMetadataRecordArgsPtr addr
                  w w1 (same_constants_of_args _ _ Hk)) as [Oo [Oe _]].
      erewrite bind_returned by exact E.
      erewrite bind_returned by apply get_run.
      destruct Hk as [_ Hk]. rewrite Hk, H2.
      cbn [app outcome world_after events fst snd].
      rewrite Oo, Oe. split; reflexivity.
    + rewrite (swift_addNewDSOImage_second_skipped _ _ _ H2), H1.
      cbn [ret events snd]. rewrite app_nil_r. split; [exact Ho|reflexivity].
  - rewrite (swift_addNewDSOImage_first_skipped _ _ _ H1).
    cbn [ret events snd app].
    destruct (flag TypeMetadataRecordArgsPtr w); split; reflexivity.
Qed.

(** The events of a lookup in an image that opens. *)
Lemma addSectionBlock_lookup_events P r fname w :
  opens P fname ->
  exists calls,
    events (addSectionBlock P r fname w)
    = [EvDlopen fname lookup_flags;
       EvDlsym (dlopen_result P fname lookup_flags) (symbolName (deref r w));
       EvDlclose (dlopen_result P fname lookup_flags)] ++ calls.
Proof.
  intros Ho. rewrite addSectionBlock_run, (getSectionInfo_opened _ _ _ _ Ho).
  cbv zeta. eexists. reflexivity.
Qed.

Lemma addBlock_calls_In e evs : In e (addBlock_calls evs) -> In e evs.
Proof. unfold addBlock_calls. intros H. now apply filter_In in H. Qed.

(** C5, as the code has it: with a null address the entry point never
    calls [dladdr] and opens no image but the main executable; it does
    nothing when neither registry is initialised; as soon as one is, it
    opens the main executable and looks the section up there.  For each
    initialised registry, also when both are, and provided the main
    executable opens, the registry's symbol is looked up in the main
    executable and its callback is called with that section when the
    section is there and not empty; the calls made are exactly those, the
    conformance registry's before the type-metadata registry's. *)
Theorem swift_addNewDSOImage_null_address :
  forall (P : Platform) (w : World),
    (flag ProtocolConformanceArgsPtr w = false ->
     flag TypeMetadataRecordArgsPtr w = false ->
     swift_addNewDSOImage P nullptr w = (Returned tt, w, []))
    /\
    Forall main_executable_only (events (swift_addNewDSOImage P nullptr w))
    /\
    (flag ProtocolConformanceArgsPtr w = true \/
     flag TypeMetadataRecordArgsPtr w = true ->
     exists rest,
       events (swift_addNewDSOImage P nullptr w)
       = EvDlopen None lookup_flags :: rest)
    /\
    (forall r,
       flag r w = true ->
       flag (other r) w = false ->
       let symbol := dlsym_result P (dlopen_result P None lookup_flags)
                       (symbolName (deref r w)) in
       dlopen_result P None lookup_flags <> nullptr ->
       symbol <> nullptr ->
       0 < stored_uint64 P symbol ->
       addBlock_calls (events (swift_addNewDSOImage P nullptr w))
       = [EvAddBlock (addBlock (deref r w)) (symbol + 8)
            (to_uintptr_t P (stored_uint64 P symbol))])
    /\
    (forall r,
       flag r w = true ->
       opens P None ->
       let symbol := dlsym_result P (dlopen_result P None lookup_flags)
                       (symbolName (deref r w)) in
       In (EvDlsym (dlopen_result P None lookup_flags)
                   (symbolName (deref r w)))
          (events (swift_addNewDSOImage P nullptr w)) /\
       (symbol <> nullptr ->
        0 < stored_uint64 P symbol ->
        In (EvAddBlock (addBlock (deref r w)) (symbol + 8)
              (to_uintptr_t P (stored_uint64 P symbol)))
           (events (swift_addNewDSOImage P nullptr w))))
    /\
    (is_android P = true \/ opens P None ->
     outcome (swift_addNewDSOImage P nullptr w) = Returned tt /\
     addBlock_calls (events (swift_addNewDSOImage P nullptr w))
     = (if flag ProtocolConformanceArgsPtr w
        then section_report P (symbolName (ProtocolConformanceArgs w))
               (addBlock (ProtocolConformanceArgs w)) None
        else [])
         ++ (if flag TypeMetadataRecordArgsPtr w
             then section_report P (symbolName (TypeMetadataRecordArgs w))
                    (addBlock (TypeMetadataRecordArgs w)) None
             else [])).
Proof.
  intros P w.
  assert (Hsplit : is_android P = true \/ opens P None ->
            outcome (swift_addNewDSOImage P nullptr w)
            = outcome ((if flag TypeMetadataRecordArgsPtr w
                        then addBlockInImage P TypeMetadataRecordArgsPtr
                               nullptr
                        else ret tt) w) /\
            events (swift_addNewDSOImage P nullptr w)
            = events ((if flag ProtocolConformanceArgsPtr w
                       then addBlockInImage P ProtocolConformanceArgsPtr
                              nullptr
                       else ret tt) w)
                ++ events ((if flag TypeMetadataRecordArgsPtr w
                            then addBlockInImage P TypeMetadataRecordArgsPtr
                                   nullptr
                            else ret tt) w)).
  { intros Hc. apply swift_addNewDSOImage_split.
    destruct (flag ProtocolConformanceArgsPtr w); [|reflexivity].
    rewrite addBlockInImage_null.
    exact (proj1 (addSectionBlock_report P ProtocolConformanceArgsPtr None
                    w Hc)). }
  split; [|split; [|split; [|split; [|split]]]].
  - intros H1 H2.
    rewrite (swift_addNewDSOImage_first_skipped _ _ _ H1). now rewrite H2.
  - revert w Hsplit. intros w _.
    revert w. change (emits_only main_executable_only
                        (swift_addNewDSOImage P nullptr)).
    unfold swift_addNewDSOImage.
    apply emits_only_bind; [intros w; constructor|]. intros w1.
    apply emits_only_bind.
    + destruct (didInitializeLookup _);
        [apply addBlockInImage_null_events|apply emits_only_ret].
    + intros _. apply emits_only_bind; [intros w; constructor|]. intros w2.
      destruct (didInitializeLookup _);
        [apply addBlockInImage_null_events|apply emits_only_ret].
  - intros H.
    destruct (flag ProtocolConformanceArgsPtr w) eqn:H1.
    + unfold swift_addNewDSOImage.
      erewrite bind_returned by apply get_run.
      unfold flag in H1. cbn [deref] in H1. rewrite H1.
      cbn [app events snd].
      destruct (addBlockInImage_null_first_event P
                  ProtocolConformanceArgsPtr w) as [rest He].
      destruct (addBlockInImage P ProtocolConformanceArgsPtr nullptr w)
        as [[[u|d] w1] e1] eqn:E; cbn [events snd] in He; subst e1.
      * erewrite bind_returned by exact E. cbn [events snd app].
        eexists. reflexivity.
      * erewrite bind_terminated by exact E. eexists. reflexivity.
    + destruct H as [H|H]; [discriminate|].
      rewrite (swift_addNewDSOImage_first_skipped _ _ _ H1), H.
      apply addBlockInImage_null_first_event.
  - intros r Hr Ho symbol Hh Hs Hz.
    assert (E : swift_addNewDSOImage P nullptr w
                = addBlockInImage P r nullptr w).
    { destruct r; cbn [other] in Ho.
      - rewrite (swift_addNewDSOImage_second_skipped _ _ _ Ho).
        now rewrite Hr.
      - rewrite (swift_addNewDSOImage_first_skipped _ _ _ Ho).
        now rewrite Hr. }
    rewrite E, addBlockInImage_null.
    now apply addSectionBlock_reports.
  - intros r Hr Ho symbol.
    destruct (Hsplit (or_intror Ho)) as [_ He]. rewrite He.
    assert (Hin : forall e,
               In e (events (addBlockInImage P r nullptr w)) ->
               In e (events ((if flag ProtocolConformanceArgsPtr w
                              then addBlockInImage P
                                     ProtocolConformanceArgsPtr nullptr
                              else ret tt) w)
                       ++ events ((if flag TypeMetadataRecordArgsPtr w
                                   then addBlockInImage P
                                          TypeMetadataRecordArgsPtr nullptr
                                   else ret tt) w))).
    { intros e H. apply in_or_app.
      destruct r; rewrite Hr; [left|right]; exact H. }
    split.
    + apply Hin. rewrite addBlockInImage_null.
      destruct (addSectionBlock_lookup_events P r None w Ho) as [calls Hc].
      rewrite Hc. right. left. reflexivity.
    + intros Hs Hz. apply Hin. rewrite addBlockInImage_null.
      apply addBlock_calls_In.
      rewrite (addSectionBlock_reports P r None w Ho Hs Hz).
      left. reflexivity.
  - intros Hc. destruct (Hsplit Hc) as [Hout He]. rewrite Hout, He.
    rewrite addBlock_calls_app. split.
    + destruct (flag TypeMetadataRecordArgsPtr w); [|reflexivity].
      rewrite addBlockInImage_null.
      exact (proj1 (addSectionBlock_report P TypeMetadataRecordArgsPtr None
                      w Hc)).
    + f_equal.
      * destruct (flag ProtocolConformanceArgsPtr w); [|reflexivity].
        rewrite addBlockInImage_null.
        exact (proj2 (addSectionBlock_report P ProtocolConformanceArgsPtr
                        None w Hc)).
      * destruct (flag TypeMetadataRecordArgsPtr w); [|reflexivity].
        rewrite addBlockInImage_null.
        exact (proj2 (addSectionBlock_report P TypeMetadataRecordArgsPtr
                        None w Hc)).
Qed.

Lemma swift_addNewDSOImage_null_address_witness :
  flag ProtocolConformanceArgsPtr Demo.ready_world = true /\
  flag TypeMetadataRecordArgsPtr Demo.ready_world = false /\
  addBlock_calls (events (swift_addNewDSOImage Demo.linux nullptr
                            Demo.ready_world))
  = [EvAddBlock addImageProtocolConformanceBlockCallback (0x5000 + 8) 8] /\
  swift_addNewDSOImage Demo.linux nullptr initial_world
  = (Returned tt, initial_world, []) /\
  flag ProtocolConformanceArgsPtr TwoSections.both_ready = true /\
  flag TypeMetadataRecordArgsPtr TwoSections.both_ready = true /\
  opens TwoSections.linux None /\
  In (EvDlsym 0x1000 TypeMetadataRecordsSymbol)
     (events (swift_addNewDSOImage TwoSections.linux nullptr
                TwoSections.both_ready)) /\
  In (EvAddBlock addImageTypeMetadataRecordBlockCallback (0x5100 + 8) 32)
     (events (swift_addNewDSOImage TwoSections.linux nullptr
                TwoSections.both_ready)) /\
  addBlock_calls (events (swift_addNewDSOImage TwoSections.linux nullptr
                            TwoSections.both_ready))
  = [EvAddBlock addImageProtocolConformanceBlockCallback 0x5008 8;
     EvAddBlock addImageTypeMetadataRecordBlockCallback 0x5108 32].
Proof.
  assert (H1 : flag ProtocolConformanceArgsPtr Demo.ready_world = true)
    by reflexivity.
  assert (H2 : flag TypeMetadataRecordArgsPtr Demo.ready_world = false)
    by reflexivity.
  assert (B1 : flag ProtocolConformanceArgsPtr TwoSections.both_ready = true)
    by reflexivity.
  assert (B2 : flag TypeMetadataRecordArgsPtr TwoSections.both_ready = true)
    by reflexivity.
  assert (Ho : opens TwoSections.linux None) by (vm_compute; discriminate).
  pose proof (swift_addNewDSOImage_null_address TwoSections.linux
                TwoSections.both_ready) as [_ [_ [_ [_ [T5 T6]]]]].
  destruct (T5 TypeMetadataRecordArgsPtr B2 Ho) as [T5a T5b].
  split; [exact H1|]. split; [exact H2|]. split.
  { apply (proj1 (proj2 (proj2 (proj2 (swift_addNewDSOImage_null_address
                                  Demo.linux Demo.ready_world))))
             ProtocolConformanceArgsPtr H1 H2).
    - vm_compute. discriminate.
    - vm_compute. discriminate.
    - vm_compute. reflexivity. }
  split.
  { apply (proj1 (swift_addNewDSOImage_null_address Demo.linux
                    initial_world)); reflexivity. }
  split; [exact B1|]. split; [exact B2|]. split; [exact Ho|]. split.
  { exact T5a. }
  split.
  { apply T5b; [vm_compute; discriminate|vm_compute; reflexivity]. }
  exact (proj2 (T6 (or_intror Ho))).
Defined.
